(** * LL-Game: the game state engine

    A shallow embedding of the state-transition code of the game
    ([utils/mechanics.ts], [types.ts], [constants.ts] and the handlers of
    [App.tsx]): the time progression machine [advanceTime], the stat
    aggregator [calculateStats], the equipment handlers ([handleEquip],
    [handleDevForceEquip], [handleDevAdd], [handleDrop]), both halves of
    [processTurn], [handleUndo], [toggleFavorite], [handleDevSlotClick],
    [handleNewGameConfig] with the initial state, and the save slots.

    Modelling conventions.
    - A JS [number] held in a stat, a relationship or a delta is a [num]:
      an integer or [NaN].  The sum [num_add] is the exact one, which is
      the sum of the doubles as long as it stays within 2^53 in
      magnitude; [double_add] rounds as IEEE addition does, and where
      the order of additions matters the aggregator is given with it
      ([calculateStatsWith]).  Fractions are no values of the model: a
      stat dragged to a fraction with the debug slider, or an answer of
      the engine with a fraction in it, is outside it.  [NaN] is kept
      because the source can produce it ([undefined + x], a function
      plus a number) and because [Math.min] and [Math.max] propagate it.
      The counters of the time cursor are never read from a missing
      property and are plain integers.
    - An object used as a dictionary ([stats], [npcRelationships]) is a
      [gmap string _] of its own properties; an object iterated with
      [Object.entries] is the list of its entries in iteration order.
      Where the response phase reads such an object at a key taken from
      the engine's answer, the members that every object inherits from
      [Object.prototype] are read as well ([inherited]).
    - A value parsed from the engine's answer is a [JSON] tree; a JS
      value that may be [undefined] is a [JsValue].
    - [T | null | undefined] is [option T]; an array is a [list].
    - The deep copy [JSON.parse(JSON.stringify(x))] is [x]: it copies
      every value of the model but [NaN], which it turns into [null];
      states that hold a [NaN] are outside this reading ([JSON_copy]).
    - A React state update [setGameState (prev => e)] is the function
      [prev |-> e]; the closure variable [gameState] and [prev] denote the
      same state, since handlers run one at a time, and React runs every
      updater once.  Where an updater reads an object that the handler
      writes to after queueing it, the moment at which React runs the
      updater is a parameter.
    - The realm is pristine: [Object.prototype] has its standard members
      and no others. *)

From Stdlib Require Import ZArith Lia.
From stdpp Require Import gmap strings list fin_maps.
From stdpp Require Import pretty sorting.

Local Open Scope Z_scope.
Set Warnings "-register-all".

(** ** Numbers *)

Inductive num : Type :=
| Fin (z : Z)
| NaN.

#[global] Instance num_eq_dec : EqDecision num.
Proof. solve_decision. Defined.

(** The double nearest to the integer [z]: [z] itself up to 2^53 in
    magnitude, beyond that [z] rounded to 53 significant bits, a tie
    going to the even significand. *)
Definition round53 (z : Z) : Z :=
  let n := Z.abs z in
  if n <=? 2 ^ 53 then z
  else
    let e := Z.log2 n - 52 in
    let q := n / 2 ^ e in
    let r := n mod 2 ^ e in
    let q' :=
      if 2 * r <? 2 ^ e then q
      else if 2 ^ e <? 2 * r then q + 1
      else if Z.even q then q else q + 1 in
    Z.sgn z * (q' * 2 ^ e).

(** [a + b], idealised: the exact sum.  It is the sum of the doubles
    when that sum is at most 2^53 in magnitude. *)
Definition num_add (a b : num) : num :=
  match a, b with
  | Fin x, Fin y => Fin (x + y)
  | _, _ => NaN
  end.

(** [a + b] on doubles that hold integers, as IEEE addition gives it:
    the exact sum, rounded. *)
Definition double_add (a b : num) : num :=
  match a, b with
  | Fin x, Fin y => Fin (round53 (x + y))
  | _, _ => NaN
  end.

Definition num_abs (x : num) : Z :=
  match x with Fin z => Z.abs z | NaN => 0 end.

(** [Math.min(c, x)] and [Math.max(c, x)] for an integer literal [c]. *)
Definition Math_min (c : Z) (x : num) : num :=
  match x with Fin z => Fin (Z.min c z) | NaN => NaN end.

Definition Math_max (c : Z) (x : num) : num :=
  match x with Fin z => Fin (Z.max c z) | NaN => NaN end.

(** Truthiness of a number: neither [0] nor [NaN]. *)
Definition truthy (x : num) : bool :=
  match x with Fin z => negb (z =? 0) | NaN => false end.

(** [x || 0] for an optional number. *)
Definition or_zero (x : option num) : num :=
  match x with
  | Some v => if truthy v then v else Fin 0
  | None => Fin 0
  end.

(** [a + b] where [a] is the result of a property read, [undefined] when
    the property is missing. *)
Definition add_undef (a : option num) (b : num) : num :=
  match a with Some x => num_add x b | None => NaN end.

Definition in_range (x : num) : Prop :=
  match x with Fin z => 0 <= z <= 100 | NaN => False end.

(** ** types.ts *)

Inductive TimeSegment : Type :=
| PRE_DAWN | DAWN | MORNING | DAY | EVENING | NIGHT | POST_NIGHT.

#[global] Instance TimeSegment_eq_dec : EqDecision TimeSegment.
Proof. solve_decision. Defined.

(** [Object.values(TimeSegment)]: the members in declaration order. *)
Definition segments : list TimeSegment :=
  [PRE_DAWN; DAWN; MORNING; DAY; EVENING; NIGHT; POST_NIGHT].

(** [Array.prototype.indexOf]: the first position of [x], or [-1]. *)
Fixpoint indexOf {A} `{EqDecision A} (l : list A) (x : A) : Z :=
  match l with
  | [] => -1
  | y :: l' =>
      if decide (y = x) then 0
      else let r := indexOf l' x in if r <? 0 then -1 else r + 1
  end.

(** ** utils/mechanics.ts: advanceTime *)

Record TimeResult : Type := mkTimeResult {
  tr_segment : TimeSegment;
  tr_slots : Z;
  tr_newDay : bool
}.

Definition advanceTime (currentSegment : TimeSegment) (slotsUsed : Z)
  : TimeResult :=
  let currentIndex := indexOf segments currentSegment in
  if decide (currentSegment = PRE_DAWN) then mkTimeResult DAWN 0 false
  else if decide (currentSegment = POST_NIGHT) then mkTimeResult PRE_DAWN 0 true
  else if slotsUsed <? 2 then mkTimeResult currentSegment (slotsUsed + 1) false
  else
    let nextIndex := currentIndex + 1 in
    if nextIndex <? Z.of_nat (length segments) then
      (* the index is in range on this branch, see [next_segment_in_range] *)
      mkTimeResult (nth (Z.to_nat nextIndex) segments PRE_DAWN) 0 false
    else mkTimeResult PRE_DAWN 0 true.

(** The five segments that carry action slots. *)
Definition normal_segment (s : TimeSegment) : bool :=
  match s with PRE_DAWN | POST_NIGHT => false | _ => true end.

(** The time cursor of the game state and one step of it, as both
    [processTurn] and [handleDevSlotClick] compute it. *)
Record GameTime : Type := mkGameTime {
  day : Z;
  segment : TimeSegment;
  slotsUsed : Z
}.

Definition stepTime (t : GameTime) : GameTime :=
  let timeResult := advanceTime (segment t) (slotsUsed t) in
  {| day := if tr_newDay timeResult then day t + 1 else day t;
     segment := tr_segment timeResult;
     slotsUsed := tr_slots timeResult |}.

(** States reached from a cursor by any number of steps. *)
Inductive reachable (t0 : GameTime) : GameTime -> Prop :=
| reach_init : reachable t0 t0
| reach_step t : reachable t0 t -> reachable t0 (stepTime t).

(** The slot invariant of the data model. *)
Definition slots_ok (t : GameTime) : Prop :=
  if normal_segment (segment t) then 0 <= slotsUsed t <= 2
  else slotsUsed t = 0.

(** ** types.ts: items, equipment, history, relationships *)

Record Item : Type := mkItem {
  item_id : string;
  item_name : string;
  item_type : string;
  basePrice : num;
  item_stats : gmap string num;
  description : string;
  tags : list string
}.

(** [keyof GameState['equipped']]. *)
Inductive SlotKey : Type :=
| K_top | K_bottom | K_footwear | K_underwearTop | K_underwearBottom
| K_accessory | K_fullBody.

#[global] Instance SlotKey_eq_dec : EqDecision SlotKey.
Proof. solve_decision. Defined.

Record Equipped : Type := mkEquipped {
  top : option Item;
  bottom : option Item;
  footwear : option Item;
  underwearTop : option Item;
  underwearBottom : option Item;
  accessory : option Item;
  fullBody : option Item
}.

(** [equipped[slotKey]] and [equipped[slotKey] = v]. *)
Definition getSlot (e : Equipped) (k : SlotKey) : option Item :=
  match k with
  | K_top => top e
  | K_bottom => bottom e
  | K_footwear => footwear e
  | K_underwearTop => underwearTop e
  | K_underwearBottom => underwearBottom e
  | K_accessory => accessory e
  | K_fullBody => fullBody e
  end.

Definition setSlot (e : Equipped) (k : SlotKey) (v : option Item) : Equipped :=
  match k with
  | K_top => mkEquipped v (bottom e) (footwear e) (underwearTop e)
               (underwearBottom e) (accessory e) (fullBody e)
  | K_bottom => mkEquipped (top e) v (footwear e) (underwearTop e)
               (underwearBottom e) (accessory e) (fullBody e)
  | K_footwear => mkEquipped (top e) (bottom e) v (underwearTop e)
               (underwearBottom e) (accessory e) (fullBody e)
  | K_underwearTop => mkEquipped (top e) (bottom e) (footwear e) v
               (underwearBottom e) (accessory e) (fullBody e)
  | K_underwearBottom => mkEquipped (top e) (bottom e) (footwear e)
               (underwearTop e) v (accessory e) (fullBody e)
  | K_accessory => mkEquipped (top e) (bottom e) (footwear e)
               (underwearTop e) (underwearBottom e) v (fullBody e)
  | K_fullBody => mkEquipped (top e) (bottom e) (footwear e)
               (underwearTop e) (underwearBottom e) (accessory e) v
  end.

(** A value that [JSON.parse] returns.  The members of an object are
    held as its [Object.entries]; their names are distinct.  [JNum z] is
    a number that is the integer [z]; [JFrac] is a number that is no
    integer, whose value the model does not hold. *)
Inductive JSON : Type :=
| JNull
| JBool (b : bool)
| JNum (z : Z)
| JFrac
| JStr (s : string)
| JArr (elements : list JSON)
| JObj (members : list (string * JSON)).

(** A JS value read from parsed JSON: [None] is [undefined]. *)
Definition JsValue : Type := option JSON.

Definition ofString (s : string) : JsValue := Some (JStr s).
Coercion ofString : string >-> JsValue.

Inductive Role : Type := user | model.

(** [text] is a string by its declared type; the response phase stores
    there whatever the engine's answer holds as its narrative. *)
Record HistoryEntry : Type := mkHistoryEntry {
  role : Role;
  text : JsValue;
  retracted : option bool
}.

Record Relationship : Type := mkRelationship {
  trust : num;
  attraction : num;
  familiarity : num;
  isFavorite : option bool
}.

Inductive Intensity : Type := Light | Full.

Record GameConfig : Type := mkGameConfig {
  nsfw : bool;
  intensity : Intensity;
  tutorial : bool;
  firstTimeEvents : bool
}.

Record GameState : Type := mkGameState {
  stats : gmap string num;
  inventory : list Item;
  equipped : Equipped;
  time : GameTime;
  location : string;
  history : list HistoryEntry;
  npcRelationships : gmap string Relationship;
  config : option GameConfig
}.

(** [GameEngineResponse['updates']]; every field is optional.
    [statChanges] and [relationshipChanges] are held as their
    [Object.entries]. *)
Record RelChange : Type := mkRelChange {
  c_trust : option num;
  c_attraction : option num;
  c_familiarity : option num
}.

Record Updates : Type := mkUpdates {
  statChanges : option (list (string * option num));
  relationshipChanges : option (list (string * RelChange));
  moneyChange : option num;
  locationChange : option string;
  itemGained : option (list string);
  itemLost : option (list string)
}.


(** ** constants.ts *)

Definition INITIAL_STATS : gmap string num :=
  list_to_map
    [("CONFIDENCE", Fin 10); ("WILL", Fin 10); ("WIT", Fin 10);
     ("GRACE", Fin 10); ("UTILITY", Fin 10); ("AWARENESS", Fin 10);
     ("VITALITY", Fin 100); ("FINANCE", Fin 100); ("SOCIAL_CLASS", Fin 0);
     ("BLUSH", Fin 0); ("FATIGUE", Fin 0); ("VULNERABILITY", Fin 0);
     ("MALE_GAZE", Fin 0); ("FEMALE_JUDGE", Fin 0); ("DANGER", Fin 0)].

Definition INITIAL_EQUIPPED : Equipped :=
  mkEquipped None None None None None None None.

(** Three entries of [ITEM_DATABASE]. *)
Definition btm_pants_yoga_01 : Item :=
  {| item_id := "btm_pants_yoga_01";
     item_name := "Yoga Pants";
     item_type := "Bottom";
     basePrice := Fin 40;
     item_stats := list_to_map
       [("UTILITY", Fin 8); ("SOCIAL_CLASS", Fin (-3));
        ("MALE_GAZE", Fin 15); ("FEMALE_JUDGE", Fin 10)];
     description := "Skin-tight athletic pants.";
     tags := ["Medium Class"; "Feminine"; "Revealing"] |}.

Definition top_blouse_silk_01 : Item :=
  {| item_id := "top_blouse_silk_01";
     item_name := "Silk Blouse";
     item_type := "Top";
     basePrice := Fin 60;
     item_stats := list_to_map
       [("UTILITY", Fin (-3)); ("SOCIAL_CLASS", Fin 15);
        ("FEMALE_JUDGE", Fin 8); ("MALE_GAZE", Fin 3)];
     description := "Long-sleeved, high-collared blouse in delicate material.";
     tags := ["Medium Class"; "Feminine"; "Professional"] |}.

Definition outfit_dress_sundress_01 : Item :=
  {| item_id := "outfit_dress_sundress_01";
     item_name := "Flowery Sundress";
     item_type := "FullBody";
     basePrice := Fin 50;
     item_stats := list_to_map
       [("UTILITY", Fin (-1)); ("SOCIAL_CLASS", Fin 5);
        ("MALE_GAZE", Fin 8); ("AWARENESS", Fin 10)];
     description := "A light, low-cut dress with a flowing skirt.";
     tags := ["Medium Class"; "Feminine"] |}.

(** A new-game state whose inventory holds the three items above (the
    shipped [INITIAL_GAME_STATE] is prepopulated with the whole catalog);
    relationships are left out. *)
Definition wardrobeState : GameState :=
  {| stats := INITIAL_STATS;
     inventory := [btm_pants_yoga_01; top_blouse_silk_01;
                   outfit_dress_sundress_01];
     equipped := INITIAL_EQUIPPED;
     time := mkGameTime 0 PRE_DAWN 0;
     location := "home_lily_bedroom";
     history := [];
     npcRelationships := ∅;
     config := None |}.

(** ** App.tsx: the equipment resolver *)

Definition getSlotFromType (type : string) : SlotKey :=
  if String.eqb type "Top" then K_top
  else if String.eqb type "Bottom" then K_bottom
  else if String.eqb type "Footwear" then K_footwear
  else if String.eqb type "Accessory" then K_accessory
  else if String.eqb type "Underwear_Top" then K_underwearTop
  else if String.eqb type "Underwear_Bottom" then K_underwearBottom
  else if String.eqb type "FullBody" then K_fullBody
  else K_accessory.

(** The two locals [newInventory] and [newEquipped] of the handlers. *)
Definition Outfit : Type := (list Item * Equipped)%type.

(** [if (newEquipped.k) { newInventory.push(newEquipped.k);
    newEquipped.k = null; }] *)
Definition displace (k : SlotKey) (o : Outfit) : Outfit :=
  match getSlot o.2 k with
  | Some it => (o.1 ++ [it], setSlot o.2 k None)
  | None => o
  end.

(** The generic swap: [const cur = newEquipped[slotKey];
    if (cur) newInventory.push(cur); newEquipped[slotKey] = item]. *)
Definition swapIn (slotKey : SlotKey) (item : Item) (o : Outfit) : Outfit :=
  let newInventory :=
    match getSlot o.2 slotKey with
    | Some currentlyEquipped => o.1 ++ [currentlyEquipped]
    | None => o.1
    end in
  (newInventory, setSlot o.2 slotKey (Some item)).

Definition withOutfit (prev : GameState) (o : Outfit) : GameState :=
  {| stats := stats prev;
     inventory := o.1;
     equipped := o.2;
     time := time prev;
     location := location prev;
     history := history prev;
     npcRelationships := npcRelationships prev;
     config := config prev |}.

Definition handleEquip (gameState : GameState) (index : nat) : GameState :=
  match inventory gameState !! index with
  | None => gameState
  | Some itemToEquip =>
      let slotKey := getSlotFromType (item_type itemToEquip) in
      let prev := gameState in
      (* [newInventory.splice(index, 1)] yields the same item *)
      let item := itemToEquip in
      let o0 : Outfit := (delete index (inventory prev), equipped prev) in
      let o1 :=
        if String.eqb (item_type item) "FullBody"
        then displace K_bottom (displace K_top o0)
        else o0 in
      withOutfit prev (swapIn slotKey item o1)
  end.

Definition handleDevForceEquip (gameState : GameState) (item : Item)
  : GameState :=
  let slotKey := getSlotFromType (item_type item) in
  let prev := gameState in
  let o0 : Outfit := (inventory prev, equipped prev) in
  let o1 :=
    if String.eqb (item_type item) "FullBody"
    then displace K_bottom (displace K_top o0)
    else o0 in
  let o2 :=
    if String.eqb (item_type item) "Top" || String.eqb (item_type item) "Bottom"
    then displace K_fullBody o1
    else o1 in
  withOutfit prev (swapIn slotKey item o2).

(** [Object.values(equipped).filter(i => i !== null && i !== undefined).length] *)
Definition occupied (e : Equipped) : nat :=
  length (omap id [top e; bottom e; footwear e; underwearTop e;
                   underwearBottom e; accessory e; fullBody e]).

Definition itemCount (s : GameState) : nat :=
  (length (inventory s) + occupied (equipped s))%nat.

(** ** App.tsx: the response phase of processTurn *)

(** [Math.max(0, Math.min(100, x))] *)
Definition clamp100 (x : num) : num := Math_max 0 (Math_min 100 x).

(** The member names of [Object.prototype] in a browser: what a plain
    object answers to besides its own keys. *)
Definition Object_prototype_names : list string :=
  ["constructor"; "hasOwnProperty"; "isPrototypeOf"; "propertyIsEnumerable";
   "toLocaleString"; "toString"; "valueOf"; "__proto__";
   "__defineGetter__"; "__defineSetter__"; "__lookupGetter__";
   "__lookupSetter__"].

Definition inherited (key : string) : bool :=
  bool_decide (key ∈ Object_prototype_names).

(** One iteration of the [statChanges] loop on [nextState.stats].  The
    test [stats[key] !== undefined] also holds for a key that the table
    lacks but inherits: the value read is then a function (for
    [__proto__], the prototype object), its sum with a number is a
    string that is no numeral, and the clamp of that is [NaN], which is
    stored as a new own key; only the setter of [__proto__] drops it. *)
Definition applyStatChange (st : gmap string num) (e : string * option num)
  : gmap string num :=
  let '(key, val) := e in
  match st !! key with
  | Some cur => <[key := clamp100 (num_add cur (or_zero val))]> st
  | None =>
      if inherited key then
        if String.eqb key "__proto__" then st else <[key := NaN]> st
      else st
  end.

Definition applyStatChanges (st : gmap string num) (u : Updates)
  : gmap string num :=
  match statChanges u with
  | Some entries => fold_left applyStatChange entries st
  | None => st
  end.

(** [if (updates.moneyChange) nextState.stats.FINANCE += updates.moneyChange] *)
Definition applyMoneyChange (st : gmap string num) (u : Updates)
  : gmap string num :=
  match moneyChange u with
  | Some m =>
      if truthy m then <["FINANCE" := add_undef (st !! "FINANCE") m]> st
      else st
  | None => st
  end.

(** [if (updates.locationChange) nextState.location = ...]: the empty
    string is falsy. *)
Definition applyLocationChange (loc : string) (u : Updates) : string :=
  match locationChange u with
  | Some l => if String.eqb l "" then loc else l
  | None => loc
  end.

(** [if (d) cur = Math.max(0, Math.min(100, cur + d))] *)
Definition bump (cur : num) (d : option num) : num :=
  match d with
  | Some v => if truthy v then clamp100 (num_add cur v) else cur
  | None => cur
  end.

Definition zeroRelationship : Relationship :=
  mkRelationship (Fin 0) (Fin 0) (Fin 0) None.

(** The record that one [relationshipChanges] entry leaves for its
    character: each sub-field bumped by its delta. *)
Definition bumpRel (rel : Relationship) (change : RelChange) : Relationship :=
  {| trust := bump (trust rel) (c_trust change);
     attraction := bump (attraction rel) (c_attraction change);
     familiarity := bump (familiarity rel) (c_familiarity change);
     isFavorite := isFavorite rel |}.

(** One iteration of the [relationshipChanges] loop.  The test
    [!npcRelationships[npc]] fails for a name that the table lacks but
    inherits: no record is created then, and the sub-fields are written
    to the inherited object, which is no part of the game state. *)
Definition applyRelChange (rels : gmap string Relationship)
    (e : string * RelChange) : gmap string Relationship :=
  let '(npc, change) := e in
  match rels !! npc with
  | Some rel => <[npc := bumpRel rel change]> rels
  | None =>
      if inherited npc then rels
      else <[npc := bumpRel zeroRelationship change]> rels
  end.

(** The record that one entry leaves under its name, if any. *)
Definition entryResult (rels : gmap string Relationship) (npc : string)
    (change : RelChange) : option Relationship :=
  match rels !! npc with
  | Some rel => Some (bumpRel rel change)
  | None =>
      if inherited npc then None else Some (bumpRel zeroRelationship change)
  end.

Definition applyRelChanges (rels : gmap string Relationship) (u : Updates)
  : gmap string Relationship :=
  match relationshipChanges u with
  | Some entries => fold_left applyRelChange entries rels
  | None => rels
  end.

(** The body of [if (updates) { ... }]: stats, then money, then location,
    then relationships.  [itemGained] and [itemLost] are not read. *)
Definition applyUpdates (current : GameState) (u : Updates) : GameState :=
  {| stats := applyMoneyChange (applyStatChanges (stats current) u) u;
     inventory := inventory current;
     equipped := equipped current;
     time := time current;
     location := applyLocationChange (location current) u;
     history := history current;
     npcRelationships := applyRelChanges (npcRelationships current) u;
     config := config current |}.

(** [{ ...nextState, history: [...nextState.history, entry] }] *)
Definition appendHistory (s : GameState) (entry : HistoryEntry) : GameState :=
  {| stats := stats s;
     inventory := inventory s;
     equipped := equipped s;
     time := time s;
     location := location s;
     history := history s ++ [entry];
     npcRelationships := npcRelationships s;
     config := config s |}.

(** The state update of the response phase, given what the [try] block
    left in [narrativeText] and [updates]. *)
Definition commitResponse (current : GameState) (narrativeText : JsValue)
    (upd : option Updates) : GameState :=
  let nextState :=
    match upd with
    | Some u => applyUpdates current u
    | None => current
    end in
  appendHistory nextState (mkHistoryEntry model narrativeText None).

(** *** From the parsed answer to the delta *)

(** [v.name] for the member names that the response phase reads
    ([narrative], [updates], [statChanges], [moneyChange],
    [locationChange], [relationshipChanges], [trust], [attraction],
    [familiarity]): the own member of an object, [undefined] for a
    number, a string, a boolean or an array, none of which has or
    inherits such a member.  On [null] the read throws: the callers
    test for [null] first. *)
Definition member (name : string) (v : JSON) : JsValue :=
  match v with
  | JObj members => snd <$> List.find (fun m => String.eqb (fst m) name) members
  | _ => None
  end.

(** Truthiness of a JS value. *)
Definition js_truthy (v : JsValue) : bool :=
  match v with
  | None | Some JNull => false
  | Some (JBool b) => b
  | Some (JNum z) => negb (z =? 0)
  | Some (JStr s) => negb (String.eqb s "")
  | Some JFrac | Some (JArr _) | Some (JObj _) => true
  end.

(** The decoders below give the delta of type [Updates] that stands for
    a parsed value.  They return [None] where the value has a shape that
    the code would run through conversions which the model does not
    hold (a string or an object where a number is added, a number where
    the location is stored, ...): such an answer is outside the model. *)

(** A numeric field.  A falsy value ([undefined], [null], [false], the
    empty string) acts as an absent one in [val || 0] and in [if (d)]. *)
Definition decodeNumber (v : JsValue) : option (option num) :=
  match v with
  | Some (JNum z) => Some (Some (Fin z))
  | Some JFrac | Some (JBool true) | Some (JArr _) | Some (JObj _) => None
  | Some (JStr s) => if String.eqb s "" then Some None else None
  | None | Some JNull | Some (JBool false) => Some None
  end.

Definition decodeEntries {A} (decode : JSON -> option A)
    (members : list (string * JSON)) : option (list (string * A)) :=
  mapM (fun m => pair (fst m) <$> decode (snd m)) members.

(** [updates.statChanges]: skipped when falsy; [Object.entries] of a
    number or of [true] is empty. *)
Definition decodeStatChanges (v : JsValue)
  : option (option (list (string * option num))) :=
  match v with
  | Some (JObj members) =>
      Some <$> decodeEntries (fun val => decodeNumber (Some val)) members
  | Some (JArr _) => None
  | Some (JStr s) => if String.eqb s "" then Some None else None
  | Some (JBool true) | Some JFrac => Some (Some [])
  | Some (JNum z) => if z =? 0 then Some None else Some (Some [])
  | None | Some JNull | Some (JBool false) => Some None
  end.

(** [updates.locationChange]: stored when truthy. *)
Definition decodeLocation (v : JsValue) : option (option string) :=
  match v with
  | Some (JStr s) => Some (Some s)
  | Some JFrac | Some (JBool true) | Some (JArr _) | Some (JObj _) => None
  | Some (JNum z) => if z =? 0 then Some None else None
  | None | Some JNull | Some (JBool false) => Some None
  end.

(** One value of [relationshipChanges].  Reading [change.trust] throws
    on [null]; a number, a string, a boolean or an array has no such
    members. *)
Definition decodeRelChange (change : JSON) : option RelChange :=
  match change with
  | JNull => None
  | JObj _ =>
      t ← decodeNumber (member "trust" change);
      a ← decodeNumber (member "attraction" change);
      f ← decodeNumber (member "familiarity" change);
      Some (mkRelChange t a f)
  | _ => Some (mkRelChange None None None)
  end.

(** Does the entry write to [Object.prototype]?  Under the name
    [__proto__] the object read is the prototype itself, shared by all
    objects. *)
Definition writes_prototype (e : string * RelChange) : bool :=
  String.eqb (fst e) "__proto__"
  && (truthy (or_zero (c_trust (snd e)))
      || truthy (or_zero (c_attraction (snd e)))
      || truthy (or_zero (c_familiarity (snd e)))).

Definition decodeRelChanges (v : JsValue)
  : option (option (list (string * RelChange))) :=
  match v with
  | Some (JObj members) =>
      entries ← decodeEntries decodeRelChange members;
      if existsb writes_prototype entries then None else Some (Some entries)
  | Some (JArr _) => None
  | Some (JStr s) => if String.eqb s "" then Some None else None
  | Some (JBool true) | Some JFrac => Some (Some [])
  | Some (JNum z) => if z =? 0 then Some None else Some (Some [])
  | None | Some JNull | Some (JBool false) => Some None
  end.

(** The value left in [updates]: no delta when falsy; a truthy value
    other than an object has none of the fields.  [itemGained] and
    [itemLost] are never read. *)
Definition decodeUpdates (v : JsValue) : option (option Updates) :=
  if js_truthy v then
    match v with
    | Some (JObj _ as u) =>
        sc ← decodeStatChanges (member "statChanges" u);
        rc ← decodeRelChanges (member "relationshipChanges" u);
        mc ← decodeNumber (member "moneyChange" u);
        lc ← decodeLocation (member "locationChange" u);
        Some (Some (mkUpdates sc rc mc lc None None))
    | _ => Some (Some (mkUpdates None None None None None None))
    end
  else Some None.


Section Response.
(** [JSON.parse]; [None] when it throws. *)
Variable JSON_parse : string -> option JSON.

(** The [try] block: what it leaves in [narrativeText] and [updates].
    It throws, and the [catch] falls back to the raw text, when
    [JSON.parse] throws and when the value parsed is [null], on which
    reading [narrative] throws. *)
Definition parseResponse (responseText : string) : JsValue * JsValue :=
  match JSON_parse responseText with
  | None | Some JNull => (ofString responseText, None)
  | Some parsed => (member "narrative" parsed, member "updates" parsed)
  end.

(** The response phase; [None] when the answer is outside the model. *)
Definition handleResponse (current : GameState) (responseText : string)
  : option GameState :=
  let '(narrativeText, updates) := parseResponse responseText in
  commitResponse current narrativeText <$> decodeUpdates updates.
End Response.

(** All stats but FINANCE lie in [0,100]. *)
Definition stats_in_range (st : gmap string num) : Prop :=
  forall k v, k <> "FINANCE" -> st !! k = Some v -> in_range v.

(** The same for the stats under a name that no object inherits. *)
Definition plain_stats_in_range (st : gmap string num) : Prop :=
  forall k v, k <> "FINANCE" -> inherited k = false ->
    st !! k = Some v -> in_range v.

(** No entry of the object is named like an inherited member. *)
Definition plain_keys {A} (entries : list (string * A)) : Prop :=
  Forall (fun e => inherited e.1 = false) entries.

(** Deltas with a single field, as the scenarios of the specification
    use them: [{moneyChange: m}] and [{statChanges: {key: d}}]. *)
Definition moneyDelta (m : Z) : Updates :=
  mkUpdates None None (Some (Fin m)) None None None.

Definition statDelta (key : string) (d : Z) : Updates :=
  mkUpdates (Some [(key, Some (Fin d))]) None None None None None.

(** ** App.tsx: the undo stack *)

(** [setStateHistory(prev => [...prev, snapshot])], where [snapshot] is
    the deep copy taken by [processTurn] before it changes anything. *)
Definition pushSnapshot (stateHistory : list GameState) (snapshot : GameState)
  : list GameState :=
  stateHistory ++ [snapshot].

Definition retract (item : HistoryEntry) : HistoryEntry :=
  {| role := role item; text := text item; retracted := Some true |}.

(** Returns the new [gameState] and the new [stateHistory]. *)
Definition handleUndo (stateHistory : list GameState) (isProcessing : bool)
    (gameState : GameState) : GameState * list GameState :=
  if (length stateHistory =? 0)%nat || isProcessing
  then (gameState, stateHistory)
  else
    match last stateHistory with
    | None => (gameState, stateHistory)
    | Some previousState =>
        let newHistoryStack :=
          take (length stateHistory - 1) stateHistory in
        let prevHistoryLength := length (history previousState) in
        let retractedItems :=
          map retract (drop prevHistoryLength (history gameState)) in
        let restoredState :=
          {| stats := stats previousState;
             inventory := inventory previousState;
             equipped := equipped previousState;
             time := time previousState;
             location := location previousState;
             history := history previousState ++ retractedItems;
             npcRelationships := npcRelationships previousState;
             config := config previousState |} in
        (restoredState, newHistoryStack)
    end.

(** ** App.tsx: handleDevSlotClick *)

(** The debug click on an action slot: with [devMode] on, the slot that
    equals [slotsUsed] advances the time cursor; any other click does
    nothing. *)
Definition handleDevSlotClick (devMode : bool) (gameState : GameState)
    (slotIndex : Z) : GameState :=
  if negb devMode then gameState
  else if slotIndex =? slotsUsed (time gameState) then
    let timeResult :=
      advanceTime (segment (time gameState)) (slotsUsed (time gameState)) in
    let prev := gameState in
    {| stats := stats prev;
       inventory := inventory prev;
       equipped := equipped prev;
       time := {| day := if tr_newDay timeResult
                         then day (time prev) + 1 else day (time prev);
                  segment := tr_segment timeResult;
                  slotsUsed := tr_slots timeResult |};
       location := location prev;
       history := history prev;
       npcRelationships := npcRelationships prev;
       config := config prev |}
  else gameState.

(** ** utils/mechanics.ts: calculateStats *)

(** [Object.values(equipped).filter(i => i !== null && i !== undefined)] *)
Definition equippedItems (e : Equipped) : list Item :=
  omap id [top e; bottom e; footwear e; underwearTop e;
           underwearBottom e; accessory e; fullBody e].

(** [if (currentStats[stat] !== undefined && value !== undefined)
    currentStats[stat] += value]; a modifier held by [item_stats] is
    never [undefined]. *)
Definition addModifier (stat : string) (value : num)
    (currentStats : gmap string num) : gmap string num :=
  match currentStats !! stat with
  | Some cur => <[stat := num_add cur value]> currentStats
  | None => currentStats
  end.

(** The loop over [Object.entries(item.stats)]. *)
Definition addItemStats (currentStats : gmap string num) (item : Item)
  : gmap string num :=
  map_fold addModifier currentStats (item_stats item).

Definition calculateStats (baseStats : gmap string num) (e : Equipped)
  : gmap string num :=
  fold_left addItemStats (equippedItems e) baseStats.

(** The modifiers that the items of a list carry for one stat. *)
Definition modifiers (stat : string) (items : list Item) : list num :=
  omap (fun it => item_stats it !! stat) items.

(** The aggregator with the sum [+=] as a parameter: [calculateStats] is
    the one with the exact sum; with [double_add] the sums are those of
    the doubles, rounded after every addition. *)
Definition addModifierWith (add : num -> num -> num) (stat : string)
    (value : num) (currentStats : gmap string num) : gmap string num :=
  match currentStats !! stat with
  | Some cur => <[stat := add cur value]> currentStats
  | None => currentStats
  end.

Definition addItemStatsWith (add : num -> num -> num)
    (currentStats : gmap string num) (item : Item) : gmap string num :=
  map_fold (addModifierWith add) currentStats (item_stats item).

Definition calculateStatsWith (add : num -> num -> num)
    (baseStats : gmap string num) (e : Equipped) : gmap string num :=
  fold_left (addItemStatsWith add) (equippedItems e) baseStats.

(** ** App.tsx: more of the equipment panel *)

Definition handleDevAdd (gameState : GameState) (item : Item) : GameState :=
  let prev := gameState in
  {| stats := stats prev;
     inventory := inventory prev ++ [item];
     equipped := equipped prev;
     time := time prev;
     location := location prev;
     history := history prev;
     npcRelationships := npcRelationships prev;
     config := config prev |}.

(** [handleDrop], from the inventory index read off the drag event
    ([None] when the payload is missing or no number) and the slot the
    item is dropped on. *)
Definition handleDrop (gameState : GameState) (index : option nat)
    (targetSlot : SlotKey) : GameState :=
  match index with
  | None => gameState
  | Some i =>
      match inventory gameState !! i with
      | None => gameState
      | Some item =>
          let calculatedSlot := getSlotFromType (item_type item) in
          if decide (calculatedSlot = targetSlot) then handleEquip gameState i
          else gameState
      end
  end.

(** Every item the player holds, worn or not. *)
Definition allItems (s : GameState) : list Item :=
  inventory s ++ equippedItems (equipped s).

(** The exclusivity of the full-body slot against top and bottom. *)
Definition exclusive (e : Equipped) : Prop :=
  fullBody e = None \/ (top e = None /\ bottom e = None).

(** The seven tags of [Item['type']]. *)
Definition itemTypes : list string :=
  ["Top"; "Bottom"; "Footwear"; "Accessory"; "Underwear_Top";
   "Underwear_Bottom"; "FullBody"].

(** ** App.tsx: toggleFavorite *)

(** [!rel.isFavorite] *)
Definition notFavorite (rel : Relationship) : bool :=
  match isFavorite rel with
  | Some true => false
  | _ => true
  end.

Definition toggleFavorite (prev : GameState) (npcName : string) : GameState :=
  match npcRelationships prev !! npcName with
  | None => prev
  | Some rel =>
      {| stats := stats prev;
         inventory := inventory prev;
         equipped := equipped prev;
         time := time prev;
         location := location prev;
         history := history prev;
         npcRelationships :=
           <[npcName := {| trust := trust rel;
                           attraction := attraction rel;
                           familiarity := familiarity rel;
                           isFavorite := Some (notFavorite rel) |}]>
             (npcRelationships prev);
         config := config prev |}
  end.

(** Relationship values in [0,100]. *)
Definition rel_in_range (r : Relationship) : Prop :=
  in_range (trust r) /\ in_range (attraction r) /\ in_range (familiarity r).

Definition rels_in_range (rels : gmap string Relationship) : Prop :=
  forall npc r, rels !! npc = Some r -> rel_in_range r.

(** ** App.tsx: processTurn *)

Record Intent : Type := mkIntent {
  intent_type : string;
  manner : string
}.

(** [intent ? `[${intent.type} - ${intent.manner}] ${textInput}` : textInput] *)
Definition userEntryText (textInput : string) (intent : option Intent)
  : string :=
  match intent with
  | Some i => "[" +:+ intent_type i +:+ " - " +:+ manner i +:+ "] " +:+ textInput
  | None => textInput
  end.

(** [stats.VITALITY = Math.min(100, stats.VITALITY + 50); stats.FATIGUE = 0] *)
Definition newDayStats (st : gmap string num) : gmap string num :=
  <["FATIGUE" := Fin 0]>
    (<["VITALITY" := Math_min 100 (add_undef (st !! "VITALITY") (Fin 50))]> st).

(** The state [newState] that [processTurn] sets before it calls the
    narrative engine: time advanced, the new-day effects applied, the
    player's entry appended. *)
Definition beginTurn (gameState : GameState) (textInput : string)
    (intent : option Intent) : GameState :=
  let timeResult :=
    advanceTime (segment (time gameState)) (slotsUsed (time gameState)) in
  let tempStats :=
    if tr_newDay timeResult then newDayStats (stats gameState)
    else stats gameState in
  {| stats := tempStats;
     inventory := inventory gameState;
     equipped := equipped gameState;
     time := {| day := if tr_newDay timeResult
                       then day (time gameState) + 1
                       else day (time gameState);
                segment := tr_segment timeResult;
                slotsUsed := tr_slots timeResult |};
     location := location gameState;
     history := history gameState ++
                [mkHistoryEntry user (userEntryText textInput intent) None];
     npcRelationships := npcRelationships gameState;
     config := config gameState |}.

Definition missingKeyNotice : HistoryEntry :=
  mkHistoryEntry model
    "System: Please enter a valid API Key in the Settings Menu to play." None.

Definition connectionErrorNotice : HistoryEntry :=
  mkHistoryEntry model
    "Error connecting to the narrative engine. Please check your API key."
    None.

(** JSON holds every number of the model but [NaN], which
    [JSON.stringify] writes as [null]. *)
Definition held (x : num) : bool :=
  match x with Fin _ => true | NaN => false end.

Definition item_held (i : Item) : bool :=
  held (basePrice i) && forallb held (snd <$> map_to_list (item_stats i)).

Definition relationship_held (r : Relationship) : bool :=
  held (trust r) && held (attraction r) && held (familiarity r).

Definition state_held (s : GameState) : bool :=
  forallb held (snd <$> map_to_list (stats s))
  && forallb item_held (inventory s)
  && forallb item_held (equippedItems (equipped s))
  && forallb relationship_held (snd <$> map_to_list (npcRelationships s)).

(** [JSON.parse(JSON.stringify(s))]: the state again when JSON holds all
    its numbers; [None] otherwise, the copy having a [null] that is no
    value of the model.  A history entry whose text is [undefined] is
    copied without its text, which reads as [undefined] again. *)
Definition JSON_copy (s : GameState) : option GameState :=
  if state_held s then Some s else None.

(** The state that the updater of line 2452 copies.  It reads the closure
    variable [gameState] when React runs it: within the call of
    [setStateHistory] when the component has no update pending, else at
    the next render ([late]), which follows the synchronous part of
    [processTurn].  By then the new-day effects are written to
    [gameState.stats], the object that [tempState] and [newState]
    share with [gameState]. *)
Definition snapshotAt (late : bool) (gameState newState : GameState)
  : GameState :=
  if late then
    {| stats := stats newState;
       inventory := inventory gameState;
       equipped := equipped gameState;
       time := time gameState;
       location := location gameState;
       history := history gameState;
       npcRelationships := npcRelationships gameState;
       config := config gameState |}
  else gameState.

(** One whole call of [processTurn] on the pair of the undo stack and
    the game state, when no other handler runs while the engine is
    awaited.  [hasKey] tells whether an API key is set; [reply] is the
    text of the engine's answer ([result.text || ""]), or [None] when the
    call throws.  The result is [None] when the snapshot or the answer
    is outside the model. *)
Definition processTurn (JSON_parse : string -> option JSON)
    (late hasKey : bool) (reply : option string)
    (stateHistory : list GameState) (gameState : GameState)
    (textInput : string) (intent : option Intent)
  : option (list GameState * GameState) :=
  if negb hasKey
  then Some (stateHistory, appendHistory gameState missingKeyNotice)
  else
    let newState := beginTurn gameState textInput intent in
    snapshot ← JSON_copy (snapshotAt late gameState newState);
    let stack := pushSnapshot stateHistory snapshot in
    match reply with
    | Some responseText =>
        pair stack <$> handleResponse JSON_parse newState responseText
    | None => Some (stack, appendHistory newState connectionErrorNotice)
    end.

(** ** constants.ts: the catalog and the initial state *)

(** The entries of [ITEM_DATABASE] not given above. *)
Definition foot_sneakers_chucks_01 : Item :=
  {| item_id := "foot_sneakers_chucks_01";
     item_name := "White Converse";
     item_type := "Footwear";
     basePrice := Fin 30;
     item_stats := list_to_map
       [("UTILITY", Fin 3); ("SOCIAL_CLASS", Fin (-1)); ("AWARENESS", Fin (-5))];
     description := "Classic canvas high-tops.";
     tags := ["Low Class"; "Neutral"] |}.

Definition foot_heels_pumps_01 : Item :=
  {| item_id := "foot_heels_pumps_01";
     item_name := "Red Pumps";
     item_type := "Footwear";
     basePrice := Fin 70;
     item_stats := list_to_map
       [("UTILITY", Fin (-10)); ("SOCIAL_CLASS", Fin 10); ("MALE_GAZE", Fin 8); ("FEMALE_JUDGE", Fin 10); ("AWARENESS", Fin 20)];
     description := "Extremely high, crimson leather stiletto heels.";
     tags := ["High Class"; "Feminine"; "Restrictive"] |}.

Definition btm_skirt_mini_01 : Item :=
  {| item_id := "btm_skirt_mini_01";
     item_name := "Black Mini Skirt";
     item_type := "Bottom";
     basePrice := Fin 35;
     item_stats := list_to_map
       [("UTILITY", Fin (-2)); ("SOCIAL_CLASS", Fin 2); ("MALE_GAZE", Fin 12); ("AWARENESS", Fin 10)];
     description := "A very short, high-risk fabric skirt.";
     tags := ["Low Class"; "Feminine"; "High Risk"] |}.

Definition top_tank_wifebeater_01 : Item :=
  {| item_id := "top_tank_wifebeater_01";
     item_name := "Stained Tank";
     item_type := "Top";
     basePrice := Fin 5;
     item_stats := list_to_map
       [("UTILITY", Fin 1); ("SOCIAL_CLASS", Fin (-10)); ("FEMALE_JUDGE", Fin (-10)); ("MALE_GAZE", Fin 5)];
     description := "A thin, ripped cotton tank top.";
     tags := ["Low Class"; "Masculine"; "Trashy"] |}.

Definition und_top_lace_01 : Item :=
  {| item_id := "und_top_lace_01";
     item_name := "Black Lace Bra";
     item_type := "Underwear_Top";
     basePrice := Fin 45;
     item_stats := list_to_map
       [("MALE_GAZE", Fin 5)];
     description := "Delicate and itchy.";
     tags := ["Feminine"; "Lingerie"] |}.

Definition und_btm_lace_01 : Item :=
  {| item_id := "und_btm_lace_01";
     item_name := "Black Lace Panties";
     item_type := "Underwear_Bottom";
     basePrice := Fin 35;
     item_stats := list_to_map
       [("MALE_GAZE", Fin 5)];
     description := "Matching set. Very drafty.";
     tags := ["Feminine"; "Lingerie"] |}.

Definition ITEM_DATABASE : list Item :=
  [foot_sneakers_chucks_01;
   foot_heels_pumps_01;
   btm_pants_yoga_01;
   btm_skirt_mini_01;
   top_blouse_silk_01;
   top_tank_wifebeater_01;
   und_top_lace_01;
   und_btm_lace_01;
   outfit_dress_sundress_01].

(** [Object.keys(NPC_IMAGES)] *)
Definition NPC_NAMES : list string :=
  ["Ramone"; "Ashley"; "Mitch"; "Marcus"; "Tiffany"; "Alistar"; "Roxy";
   "Tano"; "The Agent"; "Aric"; "Finn"; "Jax"; "Veronica"; "Benji";
   "Cassian"; "Nova"; "Esther"; "The Stranger"; "Brock"; "Duke"; "Jeb";
   "Vic"; "Kwame"; "Simone"; "Tristan"; "Oscar"; "Rhiannon"; "Fern";
   "Jasper"; "Ranger Elias"; "Ranger Skye"; "The Shadow"; "The Roughneck";
   "Dorian"; "Sally"; "Coach Elara"; "Elana"; "Nia"; "Zachary"; "Helena"].

Definition STARTING_RELATIONSHIPS : gmap string Relationship :=
  list_to_map
    [("Mitch", mkRelationship (Fin 100) (Fin 0) (Fin 100) None);
     ("Ashley", mkRelationship (Fin 50) (Fin 0) (Fin 50) None);
     ("Veronica", mkRelationship (Fin 10) (Fin 0) (Fin 0) None);
     ("Jax", mkRelationship (Fin 10) (Fin 0) (Fin 0) None)].

(** [rels[name] = STARTING_RELATIONSHIPS[name] || zero], for every name
    of the image table. *)
Definition initRelationships : gmap string Relationship :=
  fold_left
    (fun rels name =>
       <[name := default zeroRelationship (STARTING_RELATIONSHIPS !! name)]>
         rels)
    NPC_NAMES ∅.

(** [INITIAL_GAME_STATE], with the inventory that constants.ts assigns
    to it after its declaration. *)
Definition INITIAL_GAME_STATE : GameState :=
  {| stats := INITIAL_STATS;
     inventory := ITEM_DATABASE;
     equipped := INITIAL_EQUIPPED;
     time := mkGameTime 0 PRE_DAWN 0;
     location := "home_lily_bedroom";
     history :=
       [mkHistoryEntry model
          "Welcome to Lily's Life.
Please enter your API Key in Settings or Load a Game to begin." None];
     npcRelationships := initRelationships;
     config := None |}.

Definition GAME_START_TEXT : string :=
  "You wake up. The room is familiar, yet... different. You catch a glimpse of yourself in the mirror. This isn't the body you went to sleep in. It's Pre-Dawn. The house is quiet.".

Definition TUTORIAL_START_TEXT : string :=
  "The alarm isn't what wakes you. It’s the weight. Or rather, the lack of it.
You blink, staring at a ceiling that looks familiar but feels wrong. The air in the room is different—softer, smelling faintly of lavender and old books. You go to rub the sleep from your eyes, but your hand feels… small. Delicate.
You sit up, the sheets sliding down your chest, and the sensation is immediate. A rush of cold air hits skin that shouldn't be there. Panic, cold and sharp, spikes in your chest. You scramble out of bed, your center of gravity completely thrown off, and stumble toward the full-length mirror in the corner.
You freeze.
Eli is gone. Staring back at you is a stranger—a woman with messy blonde hair, wide terrified eyes, and a body that hums with a nervous, electric energy. You touch your face, and the reflection mimics the movement instantly. This is real. This is you.".

(** ** App.tsx: handleNewGameConfig *)

(** The state that a new game starts in.  [initial] is what the object
    [INITIAL_GAME_STATE] holds when the handler copies it. *)
Definition handleNewGameConfig (initial : GameState) (cfg : GameConfig)
  : GameState :=
  let startText :=
    if tutorial cfg then TUTORIAL_START_TEXT else GAME_START_TEXT in
  {| stats := stats initial;
     inventory := inventory initial;
     equipped := equipped initial;
     time := {| day := if tutorial cfg then day (time initial) else 1;
                segment := segment (time initial);
                slotsUsed := slotsUsed (time initial) |};
     location := location initial;
     history := [mkHistoryEntry model startText None];
     npcRelationships := npcRelationships initial;
     config := Some cfg |}.

(** ** Sessions *)

(** The invariants of the data model that every operation below keeps.
    A stat under the name of an inherited member is left out: the
    response phase can store [NaN] there. *)
Definition state_ok (s : GameState) : Prop :=
  slots_ok (time s)
  /\ plain_stats_in_range (stats s)
  /\ is_Some (stats s !! "VITALITY")
  /\ rels_in_range (npcRelationships s).

(** One handler call on the pair of the undo stack and the game state.
    The two halves of [processTurn] are separate steps, so that other
    handlers may run while the engine is awaited; they are steps for the
    snapshots and the answers that the model covers.  The debug sliders
    ([updateStat]) and the loading of a save are no steps: they store
    whatever they are given. *)
Inductive session_step (JSON_parse : string -> option JSON)
  : list GameState * GameState -> list GameState * GameState -> Prop :=
| step_begin late stack s textInput intent snapshot :
    JSON_copy (snapshotAt late s (beginTurn s textInput intent))
    = Some snapshot ->
    session_step JSON_parse (stack, s)
      (pushSnapshot stack snapshot, beginTurn s textInput intent)
| step_response stack s responseText s' :
    handleResponse JSON_parse s responseText = Some s' ->
    session_step JSON_parse (stack, s) (stack, s')
| step_error stack s :
    session_step JSON_parse (stack, s)
      (stack, appendHistory s connectionErrorNotice)
| step_missing_key stack s :
    session_step JSON_parse (stack, s)
      (stack, appendHistory s missingKeyNotice)
| step_undo stack s isProcessing :
    session_step JSON_parse (stack, s)
      ((handleUndo stack isProcessing s).2, (handleUndo stack isProcessing s).1)
| step_equip stack s index :
    session_step JSON_parse (stack, s) (stack, handleEquip s index)
| step_drop stack s index targetSlot :
    session_step JSON_parse (stack, s) (stack, handleDrop s index targetSlot)
| step_force_equip stack s item :
    session_step JSON_parse (stack, s) (stack, handleDevForceEquip s item)
| step_dev_add stack s item :
    session_step JSON_parse (stack, s) (stack, handleDevAdd s item)
| step_favorite stack s npcName :
    session_step JSON_parse (stack, s) (stack, toggleFavorite s npcName)
| step_dev_slot stack s devMode slotIndex :
    session_step JSON_parse (stack, s)
      (stack, handleDevSlotClick devMode s slotIndex).

(** The state that an undo returns: the snapshot [S] with the history [h]. *)
Definition restored (S : GameState) (h : list HistoryEntry) : GameState :=
  {| stats := stats S;
     inventory := inventory S;
     equipped := equipped S;
     time := time S;
     location := location S;
     history := h;
     npcRelationships := npcRelationships S;
     config := config S |}.

(** ** App.tsx: save slots *)

Record SaveSlot : Type := mkSaveSlot {
  slot_id : Z;
  slot_name : string;
  slot_date : string;
  data : GameState
}.

(** [Array.prototype.sort] with the comparator [(a, b) => a.id - b.id]:
    the stable sort by [id], here by insertion from the right. *)
Fixpoint insertSlot (x : SaveSlot) (l : list SaveSlot) : list SaveSlot :=
  match l with
  | [] => [x]
  | y :: l' =>
      if slot_id y <? slot_id x then y :: insertSlot x l' else x :: y :: l'
  end.

Definition sortSlots (l : list SaveSlot) : list SaveSlot :=
  foldr insertSlot [] l.

(** [saveGame]; [now] is [new Date().toLocaleString()].  The slot holds
    the current state itself; the copy written to local storage is not
    modelled. *)
Definition saveGame (now : string) (id : Z) (slots : list SaveSlot)
    (currentState : GameState) : list SaveSlot :=
  let newSlot :=
    {| slot_id := id;
       slot_name := "Save Slot " +:+ pretty id;
       slot_date := now;
       data := currentState |} in
  sortSlots (List.filter (fun s => negb (slot_id s =? id)) slots ++ [newSlot]).

(** [deleteSave]; [confirmed] is the answer to the confirmation dialog. *)
Definition deleteSave (confirmed : bool) (id : Z) (slots : list SaveSlot)
  : list SaveSlot :=
  if negb confirmed then slots
  else List.filter (fun s => negb (slot_id s =? id)) slots.

(** [slots.find(s => s.id === id)] *)
Definition findSlot (id : Z) (slots : list SaveSlot) : option SaveSlot :=
  List.find (fun s => slot_id s =? id) slots.

(** The LOAD button of slot [id]: [slot && onLoad(slot.data)]. *)
Definition loadGame (id : Z) (slots : list SaveSlot) (gameState : GameState)
  : GameState :=
  match findSlot id slots with
  | Some slot => data slot
  | None => gameState
  end.

(** The sums that [calculateStats] forms stay within the integers that
    doubles hold exactly, in whatever order the modifiers are added. *)
Definition exact_sums (baseStats : gmap string num) (items : list Item)
  : Prop :=
  forall stat b, baseStats !! stat = Some b ->
    num_abs b + foldr Z.add 0 (num_abs <$> modifiers stat items) <= 2 ^ 53.

(** An answer of the engine that is valid JSON with no narrative:
    [{"updates":{"moneyChange":-30}}], and what [JSON.parse] returns
    for it. *)
Definition quoted (s : string) : string :=
  String (Ascii.ascii_of_nat 34) s +:+ String (Ascii.ascii_of_nat 34) EmptyString.

Definition moneyOnlyText : string :=
  "{" +:+ quoted "updates" +:+ ":{" +:+ quoted "moneyChange" +:+ ":-30}}".

Definition moneyOnlyJSON : JSON :=
  JObj [("updates", JObj [("moneyChange", JNum (-30))])].

(** A parser known at one text only: it throws on every other one. *)
Definition parseOnly (known : string) (v : JSON) (responseText : string)
  : option JSON :=
  if String.eqb responseText known then Some v else None.

(** The end of a day: post-night, with VITALITY at 30 and FATIGUE at
    80. *)
Definition nightState : GameState :=
  {| stats := <["FATIGUE" := Fin 80]> (<["VITALITY" := Fin 30]> INITIAL_STATS);
     inventory := [];
     equipped := INITIAL_EQUIPPED;
     time := mkGameTime 1 POST_NIGHT 0;
     location := "home_lily_bedroom";
     history := [];
     npcRelationships := ∅;
     config := None |}.

(** A sub-delta that is absent or zero. *)
Definition no_change (d : option num) : Prop :=
  d = None \/ d = Some (Fin 0).

(** The part of the time cursor that [advanceTime] reads, and its step. *)
Definition cursor (t : GameTime) : TimeSegment * Z :=
  (segment t, slotsUsed t).

Definition stepCursor (c : TimeSegment * Z) : TimeSegment * Z :=
  (tr_segment (advanceTime c.1 c.2), tr_slots (advanceTime c.1 c.2)).

(** Does the cursor come back to [c] within sixteen steps? *)
Definition returns_early (c : TimeSegment * Z) : bool :=
  existsb (fun k => bool_decide (Nat.iter k stepCursor c = c)) (seq 1 16).

(** ** Time machine: properties *)

Lemma next_segment_in_range (s : TimeSegment) :
  0 <= indexOf segments s + 1 ->
  indexOf segments s + 1 < Z.of_nat (length segments) ->
  nth_error segments (Z.to_nat (indexOf segments s + 1))
  = Some (nth (Z.to_nat (indexOf segments s + 1)) segments PRE_DAWN).
Proof. destruct s; vm_compute; intros; try reflexivity; discriminate. Qed.

Lemma indexOf_segments_found (s : TimeSegment) :
  0 <= indexOf segments s < 7.
Proof. destruct s; vm_compute; split; congruence. Qed.

Lemma advanceTime_normal_keep (s : TimeSegment) (n : Z) :
  normal_segment s = true -> n < 2 ->
  advanceTime s n = mkTimeResult s (n + 1) false.
Proof.
  intros Hs Hn. unfold advanceTime.
  destruct s; try discriminate; simpl;
    (destruct (n <? 2) eqn:E; [reflexivity | apply Z.ltb_ge in E; lia]).
Qed.

Lemma advanceTime_normal_next (s : TimeSegment) (n : Z) :
  normal_segment s = true -> 2 <= n ->
  exists s', advanceTime s n = mkTimeResult s' 0 false.
Proof.
  intros Hs Hn. unfold advanceTime.
  destruct s; try discriminate; simpl;
    (destruct (n <? 2) eqn:E; [apply Z.ltb_lt in E; lia | eexists; reflexivity]).
Qed.

(** C4: [advanceTime] reports a new day exactly when the input segment is
    post-night, whatever the slot count.  Post-night moves to pre-dawn
    with [newDay = true]; pre-dawn moves to dawn, a normal segment with
    [slotsUsed < 2] is retained with one more slot used, and a normal
    segment with [slotsUsed >= 2] moves to the next segment of the
    enumeration with zero slots, all three with [newDay = false]. *)
Theorem advanceTime_newDay_iff_post_night (s : TimeSegment) (n : Z) :
  (tr_newDay (advanceTime s n) = true <-> s = POST_NIGHT)
  /\ advanceTime POST_NIGHT n = mkTimeResult PRE_DAWN 0 true
  /\ advanceTime PRE_DAWN n = mkTimeResult DAWN 0 false
  /\ (normal_segment s = true -> n < 2 ->
      advanceTime s n = mkTimeResult s (n + 1) false)
  /\ (normal_segment s = true -> 2 <= n ->
      tr_newDay (advanceTime s n) = false
      /\ tr_slots (advanceTime s n) = 0
      /\ indexOf segments (tr_segment (advanceTime s n))
         = indexOf segments s + 1).
Proof.
  split; [| split; [reflexivity | split; [reflexivity | split]]].
  - destruct s; unfold advanceTime; simpl;
      try (destruct (n <? 2); simpl); split; intros H;
      first [reflexivity | discriminate].
  - apply advanceTime_normal_keep.
  - intros Hs Hn. unfold advanceTime.
    destruct s; try discriminate; simpl;
      (destruct (n <? 2) eqn:E; [apply Z.ltb_lt in E; lia |]);
      repeat split; reflexivity.
Qed.

Lemma stepTime_slots_ok (t : GameTime) : slots_ok t -> slots_ok (stepTime t).
Proof.
  destruct t as [d s n]. unfold slots_ok, stepTime. simpl.
  destruct s; simpl; intros H; unfold advanceTime; simpl;
    try lia; try reflexivity;
    (destruct (n <? 2) eqn:E; simpl;
     [apply Z.ltb_lt in E; lia | first [lia | reflexivity]]).
Qed.

(** C5: along every sequence of [advanceTime] steps that starts with
    [slotsUsed = 0], the slot count stays in [0,2] on the five normal
    segments and is exactly 0 on pre-dawn and post-night. *)
Theorem reachable_slots_ok (t0 t : GameTime) :
  slotsUsed t0 = 0 -> reachable t0 t ->
  if normal_segment (segment t) then 0 <= slotsUsed t <= 2
  else slotsUsed t = 0.
Proof.
  intros H0 Hr. change (slots_ok t).
  induction Hr as [| t Hr IH].
  - unfold slots_ok. rewrite H0. destruct (normal_segment _); lia.
  - apply stepTime_slots_ok, IH.
Qed.

Lemma reachable_slots_ok_witness :
  let t0 := mkGameTime 0 PRE_DAWN 0 in
  slotsUsed t0 = 0 /\ 0 <= slotsUsed (stepTime (stepTime (stepTime t0))) <= 2.
Proof.
  intros t0. split; [reflexivity |].
  exact (reachable_slots_ok t0 (stepTime (stepTime (stepTime t0))) eq_refl
           (reach_step _ _ (reach_step _ _ (reach_step _ _ (reach_init _))))).
Defined.

(** ** Equipment resolver: properties *)

Lemma getSlotFromType_top_or_bottom (type : string) :
  getSlotFromType type = K_top \/ getSlotFromType type = K_bottom ->
  type = "Top" \/ type = "Bottom".
Proof.
  unfold getSlotFromType.
  destruct (String.eqb_spec type "Top"); [auto |].
  destruct (String.eqb_spec type "Bottom"); [auto |].
  repeat (match goal with
          | |- context [String.eqb ?a ?b] => destruct (String.eqb a b)
          end); intros [H | H]; discriminate.
Qed.

Lemma getSlot_setSlot_ne (e : Equipped) (k k' : SlotKey) (v : option Item) :
  k <> k' -> getSlot (setSlot e k v) k' = getSlot e k'.
Proof. destruct k, k'; intros H; try reflexivity; contradiction. Qed.

Lemma getSlot_setSlot_eq (e : Equipped) (k : SlotKey) (v : option Item) :
  getSlot (setSlot e k v) k = v.
Proof. destruct k; reflexivity. Qed.

Lemma swapIn_other_slot (k k' : SlotKey) (item : Item) (o : Outfit) :
  k <> k' -> getSlot (swapIn k item o).2 k' = getSlot o.2 k'.
Proof. intros H. unfold swapIn. simpl. apply getSlot_setSlot_ne, H. Qed.

(** What [handleEquip] does with a top or a bottom: nothing but the
    generic swap, so the full-body slot keeps its occupant. *)
Lemma handleEquip_top_bottom_keeps_fullBody
    (s : GameState) (index : nat) (item : Item) :
  inventory s !! index = Some item ->
  getSlotFromType (item_type item) = K_top
  \/ getSlotFromType (item_type item) = K_bottom ->
  fullBody (equipped (handleEquip s index)) = fullBody (equipped s)
  /\ getSlot (equipped (handleEquip s index)) (getSlotFromType (item_type item))
     = Some item.
Proof.
  intros Hi Hk. unfold handleEquip. rewrite Hi.
  assert (String.eqb (item_type item) "FullBody" = false) as ->.
  { destruct (getSlotFromType_top_or_bottom _ Hk) as [-> | ->]; reflexivity. }
  split.
  - change (getSlot (swapIn (getSlotFromType (item_type item)) item
              (delete index (inventory s), equipped s)).2 K_fullBody
            = getSlot (equipped s) K_fullBody).
    apply swapIn_other_slot. destruct Hk as [-> | ->]; discriminate.
  - simpl. apply getSlot_setSlot_eq.
Qed.

(** The debug path does vacate the full-body slot for a top or a bottom. *)
Lemma handleDevForceEquip_top_bottom_vacates_fullBody
    (s : GameState) (item : Item) (worn : Item) :
  item_type item = "Top" \/ item_type item = "Bottom" ->
  fullBody (equipped s) = Some worn ->
  fullBody (equipped (handleDevForceEquip s item)) = None
  /\ worn ∈ inventory (handleDevForceEquip s item).
Proof.
  intros Ht Hw. unfold handleDevForceEquip.
  destruct Ht as [-> | ->]; simpl; unfold displace; simpl; rewrite Hw; simpl;
    (split; [reflexivity |]);
    match goal with
    | |- context [match ?x with Some _ => _ | None => _ end] => destruct x
    end; set_solver.
Qed.

(** C1: [handleEquip] does not vacate the full-body slot.  From the
    new-game wardrobe, equipping the sundress (index 2) and then the silk
    blouse (now index 1) leaves the sundress in [fullBody] while the
    blouse sits in [top]; nothing returns to the inventory.  The debug
    handler, given the same blouse, puts the sundress back. *)
Theorem handleEquip_top_leaves_fullBody_occupied :
  let s1 := handleEquip wardrobeState 2 in
  let s2 := handleEquip s1 1 in
  inventory s1 !! 1%nat = Some top_blouse_silk_01
  /\ getSlotFromType (item_type top_blouse_silk_01) = K_top
  /\ fullBody (equipped s1) = Some outfit_dress_sundress_01
  /\ top (equipped s2) = Some top_blouse_silk_01
  /\ fullBody (equipped s2) = Some outfit_dress_sundress_01
  /\ inventory s2 = [btm_pants_yoga_01]
  /\ fullBody (equipped (handleDevForceEquip s1 top_blouse_silk_01)) = None.
Proof. vm_compute. repeat split; reflexivity. Qed.

Lemma occupied_sum (e : Equipped) :
  occupied e =
  (length (option_list (top e)) + length (option_list (bottom e))
   + length (option_list (footwear e)) + length (option_list (underwearTop e))
   + length (option_list (underwearBottom e))
   + length (option_list (accessory e))
   + length (option_list (fullBody e)))%nat.
Proof.
  destruct e as [[?|] [?|] [?|] [?|] [?|] [?|] [?|]]; reflexivity.
Qed.

Lemma occupied_setSlot (e : Equipped) (k : SlotKey) (v : option Item) :
  (occupied (setSlot e k v) + length (option_list (getSlot e k))
   = occupied e + length (option_list v))%nat.
Proof. rewrite !occupied_sum. destruct k; simpl; lia. Qed.

Lemma displace_count (k : SlotKey) (o : Outfit) :
  (length (displace k o).1 + occupied (displace k o).2
   = length o.1 + occupied o.2)%nat.
Proof.
  unfold displace. pose proof (occupied_setSlot o.2 k None) as H.
  destruct (getSlot o.2 k); simpl in *; [| reflexivity].
  rewrite length_app. simpl. lia.
Qed.

Lemma swapIn_count (k : SlotKey) (item : Item) (o : Outfit) :
  (length (swapIn k item o).1 + occupied (swapIn k item o).2
   = S (length o.1 + occupied o.2))%nat.
Proof.
  unfold swapIn. pose proof (occupied_setSlot o.2 k (Some item)) as H.
  destruct (getSlot o.2 k); simpl in *; rewrite ?length_app; simpl; lia.
Qed.

(** C7: [handleEquip] keeps the number of inventory items plus occupied
    equipment slots, for every state and every index (an index that holds
    no item changes nothing). *)
Theorem handleEquip_preserves_itemCount (s : GameState) (index : nat) :
  itemCount (handleEquip s index) = itemCount s.
Proof.
  unfold handleEquip, itemCount.
  destruct (inventory s !! index) as [item |] eqn:Hi; [| reflexivity].
  pose proof (length_delete (inventory s) index (mk_is_Some _ _ Hi)) as Hd.
  pose proof (lookup_lt_Some _ _ _ Hi) as Hlt.
  cbn [withOutfit inventory equipped]. rewrite swapIn_count.
  destruct (String.eqb (item_type item) "FullBody");
    rewrite ?displace_count; simpl; lia.
Qed.

(** C10: [handleEquip] leaves [stats], [time], [location], [history] and
    [npcRelationships] (and [config]) as they were. *)
Theorem handleEquip_frame (s : GameState) (index : nat) :
  stats (handleEquip s index) = stats s
  /\ time (handleEquip s index) = time s
  /\ location (handleEquip s index) = location s
  /\ history (handleEquip s index) = history s
  /\ npcRelationships (handleEquip s index) = npcRelationships s
  /\ config (handleEquip s index) = config s.
Proof.
  unfold handleEquip.
  destruct (inventory s !! index); repeat split; reflexivity.
Qed.

(** Scenario of the specification: a top, then a full-body garment. *)
Example equip_top_then_fullBody :
  let s2 := handleEquip (handleEquip wardrobeState 1) 1 in
  top (equipped s2) = None
  /\ fullBody (equipped s2) = Some outfit_dress_sundress_01
  /\ inventory s2 = [btm_pants_yoga_01; top_blouse_silk_01].
Proof. vm_compute. repeat split; reflexivity. Qed.

(** ** Turn mutation pipeline: properties *)

(** Scenario of the specification: a character met for the first time. *)
Example discover_NewNPC :
  applyRelChange ∅
    ("NewNPC", mkRelChange (Some (Fin 5)) (Some (Fin (-3))) (Some (Fin 200)))
  !! "NewNPC"
  = Some (mkRelationship (Fin 5) (Fin 0) (Fin 100) None).
Proof. vm_compute. reflexivity. Qed.


Lemma round53_small (z : Z) : Z.abs z <= 2 ^ 53 -> round53 z = z.
Proof.
  intros H. unfold round53.
  destruct (Z.abs z <=? 2 ^ 53) eqn:E; [reflexivity |].
  apply Z.leb_gt in E. lia.
Qed.

Lemma or_zero_fin (val : option num) : exists d, or_zero val = Fin d.
Proof.
  destruct val as [[z |] |]; simpl; eauto.
  destruct (negb (z =? 0)); eauto.
Qed.

Lemma clamp100_fin (z : Z) : clamp100 (Fin z) = Fin (Z.max 0 (Z.min 100 z)).
Proof. reflexivity. Qed.

Lemma clamp100_in_range (cur : num) (val : option num) :
  in_range cur -> in_range (clamp100 (num_add cur (or_zero val))).
Proof.
  destruct (or_zero_fin val) as [d ->].
  destruct cur as [z |]; simpl; [lia | tauto].
Qed.

(** What the loop does with a key that the table lacks. *)
Lemma applyStatChange_unknown (st : gmap string num) (key : string)
    (val : option num) :
  st !! key = None ->
  applyStatChange st (key, val)
  = if inherited key && negb (String.eqb key "__proto__")
    then <[key := NaN]> st else st.
Proof.
  intros H. unfold applyStatChange. rewrite H.
  destruct (inherited key), (String.eqb key "__proto__"); reflexivity.
Qed.

Lemma applyStatChange_in_range (st : gmap string num) (e : string * option num) :
  inherited e.1 = false ->
  stats_in_range st -> stats_in_range (applyStatChange st e).
Proof.
  destruct e as [key val]. unfold applyStatChange. simpl. intros Hplain Hst.
  rewrite Hplain.
  destruct (st !! key) as [cur |] eqn:Hkey; [| exact Hst].
  intros k v Hk. rewrite lookup_insert. case_decide as Heq.
  - subst k. intros [= <-]. apply clamp100_in_range. eauto.
  - apply Hst, Hk.
Qed.

Lemma applyStatChange_plain_in_range (st : gmap string num)
    (e : string * option num) :
  plain_stats_in_range st -> plain_stats_in_range (applyStatChange st e).
Proof.
  destruct e as [key val]. unfold applyStatChange. intros Hst.
  destruct (st !! key) as [cur |] eqn:Hkey.
  - intros k v Hk Hplain. rewrite lookup_insert. case_decide as Heq.
    + subst k. intros [= <-]. apply clamp100_in_range. eauto.
    + apply Hst; assumption.
  - destruct (inherited key) eqn:Hin; [| exact Hst].
    destruct (String.eqb key "__proto__"); [exact Hst |].
    intros k v Hk Hplain. rewrite lookup_insert. case_decide as Heq.
    + subst k. congruence.
    + apply Hst; assumption.
Qed.

Lemma applyStatChange_is_Some (st : gmap string num) (e : string * option num)
    (k : string) :
  inherited e.1 = false ->
  is_Some (applyStatChange st e !! k) <-> is_Some (st !! k).
Proof.
  destruct e as [key val]. unfold applyStatChange. simpl. intros ->.
  destruct (st !! key) as [cur |] eqn:Hkey; [| reflexivity].
  rewrite lookup_insert. case_decide as Heq; [| reflexivity].
  subst k. rewrite Hkey. split; eauto.
Qed.

(** A stat that the table holds is never removed. *)
Lemma applyStatChange_keeps (st : gmap string num) (e : string * option num)
    (k : string) :
  is_Some (st !! k) -> is_Some (applyStatChange st e !! k).
Proof.
  destruct e as [key val]. unfold applyStatChange. intros Hk.
  destruct (st !! key) as [cur |] eqn:Hkey.
  - rewrite lookup_insert. case_decide; [eauto | exact Hk].
  - destruct (inherited key); [| exact Hk].
    destruct (String.eqb key "__proto__"); [exact Hk |].
    rewrite lookup_insert. case_decide; [eauto | exact Hk].
Qed.

Lemma applyStatChange_other (st : gmap string num) (key : string)
    (val : option num) (k : string) :
  key <> k -> applyStatChange st (key, val) !! k = st !! k.
Proof.
  intros Hne. unfold applyStatChange.
  destruct (st !! key); [apply lookup_insert_ne, Hne |].
  destruct (inherited key); [| reflexivity].
  destruct (String.eqb key "__proto__"); [reflexivity |].
  apply lookup_insert_ne, Hne.
Qed.

Lemma fold_applyStatChange_in_range (entries : list (string * option num))
    (st : gmap string num) :
  plain_keys entries ->
  stats_in_range st -> stats_in_range (fold_left applyStatChange entries st).
Proof.
  intros Hplain. revert st.
  induction Hplain as [| e entries He _ IH]; intros st Hst; simpl.
  - exact Hst.
  - apply IH, applyStatChange_in_range; assumption.
Qed.

Lemma fold_applyStatChange_plain_in_range
    (entries : list (string * option num)) (st : gmap string num) :
  plain_stats_in_range st ->
  plain_stats_in_range (fold_left applyStatChange entries st).
Proof.
  revert st. induction entries as [| e entries IH]; intros st Hst; simpl.
  - exact Hst.
  - apply IH, applyStatChange_plain_in_range, Hst.
Qed.

Lemma fold_applyStatChange_is_Some (entries : list (string * option num))
    (st : gmap string num) (k : string) :
  plain_keys entries ->
  is_Some (fold_left applyStatChange entries st !! k) <-> is_Some (st !! k).
Proof.
  intros Hplain. revert st.
  induction Hplain as [| e entries He _ IH]; intros st; simpl.
  - reflexivity.
  - rewrite IH. apply applyStatChange_is_Some, He.
Qed.

Lemma fold_applyStatChange_keeps (entries : list (string * option num))
    (st : gmap string num) (k : string) :
  is_Some (st !! k) -> is_Some (fold_left applyStatChange entries st !! k).
Proof.
  revert st. induction entries as [| e entries IH]; intros st Hk; simpl.
  - exact Hk.
  - apply IH, applyStatChange_keeps, Hk.
Qed.

Lemma fold_applyStatChange_other (entries : list (string * option num))
    (st : gmap string num) (k : string) :
  k ∉ entries.*1 -> fold_left applyStatChange entries st !! k = st !! k.
Proof.
  revert st. induction entries as [| [key val] entries IH]; intros st Hk; simpl.
  - reflexivity.
  - rewrite fmap_cons in Hk. apply not_elem_of_cons in Hk as [Hne Hk].
    rewrite IH by exact Hk. apply applyStatChange_other.
    intros ->. apply Hne. reflexivity.
Qed.

(** An entry of a key-unique [statChanges] object is added, then clamped. *)
Lemma fold_applyStatChange_entry (entries : list (string * option num))
    (st : gmap string num) (k : string) (d : option num) (v : num) :
  NoDup entries.*1 -> (k, d) ∈ entries -> st !! k = Some v ->
  fold_left applyStatChange entries st !! k
  = Some (clamp100 (num_add v (or_zero d))).
Proof.
  revert st. induction entries as [| [key val] entries IH];
    intros st Hnd Hin Hv; [by apply elem_of_nil in Hin |].
  rewrite fmap_cons in Hnd. apply NoDup_cons in Hnd as [Hfresh Hnd].
  cbn [fold_left]. apply elem_of_cons in Hin as [[= <- <-] | Hin].
  - rewrite fold_applyStatChange_other by exact Hfresh.
    unfold applyStatChange. rewrite Hv. apply lookup_insert_eq.
  - apply IH; [exact Hnd | exact Hin |].
    rewrite applyStatChange_other; [exact Hv |].
    intros ->. apply Hfresh. apply (list_elem_of_fmap_2 fst _ _ Hin).
Qed.

Lemma applyMoneyChange_other (st : gmap string num) (u : Updates) (k : string) :
  k <> "FINANCE" -> applyMoneyChange st u !! k = st !! k.
Proof.
  intros Hk. unfold applyMoneyChange.
  destruct (moneyChange u) as [m |]; [| reflexivity].
  destruct (truthy m); [| reflexivity].
  apply lookup_insert_ne. congruence.
Qed.

Lemma commitResponse_stats (s : GameState) (narrativeText : JsValue)
    (u : Updates) :
  stats (commitResponse s narrativeText (Some u))
  = applyMoneyChange (applyStatChanges (stats s) u) u.
Proof. reflexivity. Qed.

Lemma INITIAL_STATS_in_range : stats_in_range INITIAL_STATS.
Proof.
  intros k v Hk. unfold INITIAL_STATS. cbn [list_to_map foldr fst snd].
  repeat (rewrite lookup_insert; case_decide;
          [intros [= <-]; first [congruence | simpl; lia] |]).
  rewrite lookup_empty. discriminate.
Qed.

(** C2: from FINANCE = 100, the delta [{moneyChange: -30}] gives
    FINANCE = 70, and then [{statChanges: {FINANCE: -200}}] gives
    FINANCE = 0.  The two write paths differ in clamping: the same -200
    sent as a money change gives -130. *)
Theorem finance_money_then_stat_scenario (s : GameState) (t1 t2 : string) :
  stats s !! "FINANCE" = Some (Fin 100) ->
  let s1 := commitResponse s t1 (Some (moneyDelta (-30))) in
  let s2 := commitResponse s1 t2 (Some (statDelta "FINANCE" (-200))) in
  stats s1 !! "FINANCE" = Some (Fin 70)
  /\ stats s2 !! "FINANCE" = Some (Fin 0)
  /\ stats (commitResponse s1 t2 (Some (moneyDelta (-200)))) !! "FINANCE"
     = Some (Fin (-130)).
Proof.
  intros H s1 s2.
  assert (stats s1 !! "FINANCE" = Some (Fin 70)) as H1.
  { subst s1. rewrite commitResponse_stats.
    unfold applyStatChanges, applyMoneyChange. simpl. rewrite H.
    apply lookup_insert_eq. }
  split; [exact H1 |]. clearbody s1. split.
  - subst s2. rewrite commitResponse_stats.
    unfold applyStatChanges, applyMoneyChange. simpl. rewrite H1.
    apply lookup_insert_eq.
  - rewrite commitResponse_stats.
    unfold applyStatChanges, applyMoneyChange. simpl. rewrite H1.
    apply lookup_insert_eq.
Qed.

Lemma finance_money_then_stat_scenario_witness :
  stats wardrobeState !! "FINANCE" = Some (Fin 100)
  /\ stats (commitResponse
              (commitResponse wardrobeState "You buy a coffee."
                 (Some (moneyDelta (-30))))
              "You lose your purse." (Some (statDelta "FINANCE" (-200))))
     !! "FINANCE" = Some (Fin 0).
Proof.
  split; [reflexivity |].
  exact (proj1 (proj2 (finance_money_then_stat_scenario wardrobeState
    "You buy a coffee." "You lose your purse." eq_refl))).
Defined.

(** C6: the response update does not ignore every stat key that the
    table lacks.  On the initial state, whose stats other than FINANCE
    all lie in [0,100] and which has no stat [constructor], the delta
    [{statChanges: {constructor: 1}}] creates the stat [constructor]
    with the value [NaN], so that afterwards not every stat other than
    FINANCE lies in [0,100]. *)
Theorem commitResponse_inherited_stat_key :
  let s := INITIAL_GAME_STATE in
  let s' :=
    commitResponse s "You feel strange."
      (Some (statDelta "constructor" 1)) in
  decodeUpdates
    (Some (JObj [("statChanges", JObj [("constructor", JNum 1)])]))
  = Some (Some (statDelta "constructor" 1))
  /\ stats_in_range (stats s)
  /\ stats s !! "constructor" = None
  /\ stats s' !! "constructor" = Some NaN
  /\ ~ stats_in_range (stats s').
Proof.
  assert (stats (commitResponse INITIAL_GAME_STATE "You feel strange."
                   (Some (statDelta "constructor" 1))) !! "constructor"
          = Some NaN) as H by (vm_compute; reflexivity).
  cbv zeta. split; [vm_compute; reflexivity |].
  split; [exact INITIAL_STATS_in_range |].
  split; [vm_compute; reflexivity |].
  split; [exact H |].
  intros Hr. exact (Hr "constructor" NaN ltac:(discriminate) H).
Qed.

(** X29: for a delta whose [statChanges] names no inherited member, the
    response update keeps every stat other than FINANCE in [0,100] if it
    was there before.  No stat key other than FINANCE appears or
    disappears; an entry [k: d] of a key-unique [statChanges] object
    sets a stat [k] other than FINANCE that the table holds to
    [clamp (v + (d || 0))]; and a stat other than FINANCE that
    [statChanges] does not name keeps its value whatever the other fields
    of the delta are. *)
Theorem commitResponse_plain_stats_in_range
    (s : GameState) (narrativeText : JsValue) (upd : option Updates) :
  stats_in_range (stats s) ->
  (forall u entries,
     upd = Some u -> statChanges u = Some entries -> plain_keys entries) ->
  let s' := commitResponse s narrativeText upd in
  stats_in_range (stats s')
  /\ (forall k, k <> "FINANCE" ->
        (is_Some (stats s' !! k) <-> is_Some (stats s !! k)))
  /\ (forall u entries k d v,
        upd = Some u -> statChanges u = Some entries ->
        NoDup entries.*1 -> (k, d) ∈ entries ->
        k <> "FINANCE" -> stats s !! k = Some v ->
        stats s' !! k = Some (clamp100 (num_add v (or_zero d))))
  /\ (forall k, k <> "FINANCE" ->
        (forall u entries,
           upd = Some u -> statChanges u = Some entries -> k ∉ entries.*1) ->
        stats s' !! k = stats s !! k).
Proof.
  intros Hs Hplain s'. subst s'. destruct upd as [u |].
  2:{ simpl. split; [exact Hs |]. split; [tauto |].
      split; [discriminate | reflexivity]. }
  rewrite commitResponse_stats. split; [| split; [| split]].
  - intros k v Hk. rewrite applyMoneyChange_other by exact Hk.
    unfold applyStatChanges.
    destruct (statChanges u) as [entries |] eqn:He.
    + exact (fold_applyStatChange_in_range entries _
               (Hplain u entries eq_refl He) Hs k v Hk).
    + exact (Hs k v Hk).
  - intros k Hk. rewrite applyMoneyChange_other by exact Hk.
    unfold applyStatChanges.
    destruct (statChanges u) as [entries |] eqn:He; [| tauto].
    apply fold_applyStatChange_is_Some. exact (Hplain u entries eq_refl He).
  - intros u' entries k d v [= <-] He Hnd Hin Hk Hv.
    rewrite applyMoneyChange_other by exact Hk.
    unfold applyStatChanges. rewrite He.
    apply fold_applyStatChange_entry; assumption.
  - intros k Hk Hnot. rewrite applyMoneyChange_other by exact Hk.
    unfold applyStatChanges. destruct (statChanges u) as [entries |] eqn:He;
      [| reflexivity].
    apply fold_applyStatChange_other. eapply Hnot; eauto.
Qed.

Lemma commitResponse_plain_stats_in_range_witness :
  stats_in_range (stats wardrobeState)
  /\ stats_in_range
       (stats (commitResponse wardrobeState "You run a marathon."
                 (Some (mkUpdates
                          (Some [("VITALITY", Some (Fin (-500)));
                                 ("LUCK", Some (Fin 7))])
                          None (Some (Fin 1000)) None None None)))).
Proof.
  split; [exact INITIAL_STATS_in_range |].
  refine (proj1 (commitResponse_plain_stats_in_range wardrobeState
    "You run a marathon."
    (Some (mkUpdates
             (Some [("VITALITY", Some (Fin (-500))); ("LUCK", Some (Fin 7))])
             None (Some (Fin 1000)) None None None))
    INITIAL_STATS_in_range _)).
  intros u entries [= <-] [= <-]. repeat constructor.
Defined.

(** C9: a [statChanges] entry with value 0 still clamps.  For every stat
    key [k] the table holds, the delta [{statChanges: {k: 0}}] leaves
    [k] at the clamp of its current value; a current value above 100
    becomes 100, so FINANCE = 150 is lowered to 100. *)
Theorem zero_statChange_clamps
    (s : GameState) (narrativeText : string) (k : string) (z : Z) :
  stats s !! k = Some (Fin z) ->
  let s' := commitResponse s narrativeText (Some (statDelta k 0)) in
  stats s' !! k = Some (Fin (Z.max 0 (Z.min 100 z)))
  /\ in_range (Fin (Z.max 0 (Z.min 100 z)))
  /\ (100 < z -> stats s' !! k = Some (Fin 100) /\ stats s' !! k <> stats s !! k).
Proof.
  intros H s'.
  assert (stats s' !! k = Some (Fin (Z.max 0 (Z.min 100 z)))) as H'.
  { subst s'. rewrite commitResponse_stats.
    unfold applyMoneyChange, applyStatChanges. simpl. rewrite H. simpl.
    rewrite lookup_insert_eq, Z.add_0_r. reflexivity. }
  split; [exact H' |]. split; [simpl; lia |].
  intros Hz. rewrite H', H.
  replace (Z.max 0 (Z.min 100 z)) with 100 by lia.
  split; [reflexivity |]. intros [= E]. lia.
Qed.

(** FINANCE above 100 is reached through the money path: 100 + 50. *)
Lemma zero_statChange_clamps_witness :
  let s1 := commitResponse wardrobeState "You find a banknote."
              (Some (moneyDelta 50)) in
  stats s1 !! "FINANCE" = Some (Fin 150)
  /\ stats (commitResponse s1 "Nothing happens."
              (Some (statDelta "FINANCE" 0))) !! "FINANCE" = Some (Fin 100).
Proof.
  intros s1.
  assert (stats s1 !! "FINANCE" = Some (Fin 150)) as H by (vm_compute; reflexivity).
  split; [exact H |].
  exact (proj1 (proj2 (proj2 (zero_statChange_clamps s1 "Nothing happens."
    "FINANCE" 150 H)) ltac:(lia))).
Defined.




(** ** Undo: properties *)

(** C3: undoing with snapshot [S] on top of the stack and any current
    state [S'] pops [S] and restores each of its fields, except that the
    history is [S]'s history followed by the entries of [S']'s history
    from position [|S.history|] on, each with [retracted = true] (role
    and text kept). *)
Theorem handleUndo_restores_snapshot
    (stateHistory : list GameState) (S S' : GameState) :
  let r := handleUndo (pushSnapshot stateHistory S) false S' in
  r.2 = stateHistory
  /\ stats r.1 = stats S
  /\ inventory r.1 = inventory S
  /\ equipped r.1 = equipped S
  /\ time r.1 = time S
  /\ location r.1 = location S
  /\ npcRelationships r.1 = npcRelationships S
  /\ config r.1 = config S
  /\ history r.1
     = history S ++
       map (fun e => mkHistoryEntry (role e) (text e) (Some true))
           (drop (length (history S)) (history S'))
  /\ (forall added, history S' = history S ++ added ->
        history r.1
        = history S ++
          map (fun e => mkHistoryEntry (role e) (text e) (Some true)) added).
Proof.
  intros r.
  assert (r = ({| stats := stats S; inventory := inventory S;
                  equipped := equipped S; time := time S;
                  location := location S;
                  history := history S ++
                    map retract (drop (length (history S)) (history S'));
                  npcRelationships := npcRelationships S;
                  config := config S |}, stateHistory)) as ->.
  { subst r. unfold handleUndo, pushSnapshot.
    rewrite length_app, last_snoc. simpl.
    replace (length stateHistory + 1 =? 0)%nat with false
      by (symmetry; apply Nat.eqb_neq; lia).
    simpl. replace (length stateHistory + 1 - 1)%nat
      with (length stateHistory) by lia.
    rewrite take_app_length. reflexivity. }
  simpl. repeat split; try reflexivity.
  intros added ->. rewrite drop_app_length. reflexivity.
Qed.

(** With an empty stack, or while a turn is in flight, undo changes
    nothing. *)
Lemma handleUndo_noop (stateHistory : list GameState) (isProcessing : bool)
    (s : GameState) :
  stateHistory = [] \/ isProcessing = true ->
  handleUndo stateHistory isProcessing s = (s, stateHistory).
Proof.
  intros [-> | ->]; unfold handleUndo; [reflexivity |].
  rewrite orb_true_r. reflexivity.
Qed.

(** ** The day cycle *)

Lemma slots_ok_cases (t : GameTime) :
  slots_ok t ->
  (normal_segment (segment t) = false /\ slotsUsed t = 0)
  \/ (normal_segment (segment t) = true
      /\ (slotsUsed t = 0 \/ slotsUsed t = 1 \/ slotsUsed t = 2)).
Proof.
  unfold slots_ok. destruct (normal_segment (segment t)); intros H.
  - right. split; [reflexivity | lia].
  - left. split; [reflexivity | exact H].
Qed.

Lemma cursor_iter (k : nat) (t : GameTime) :
  cursor (Nat.iter k stepTime t) = Nat.iter k stepCursor (cursor t).
Proof.
  induction k as [| k IH]; [reflexivity |].
  simpl. rewrite <- IH. reflexivity.
Qed.

Lemma returns_early_false (t : GameTime) :
  slots_ok t -> returns_early (cursor t) = false.
Proof.
  intros H. destruct t as [d s n]. unfold cursor. simpl.
  destruct (slots_ok_cases _ H) as [[Hs Hn] | [Hs Hn]]; simpl in Hs, Hn.
  - subst n. destruct s; try discriminate; vm_compute; reflexivity.
  - destruct s; try discriminate; destruct Hn as [-> | [-> | ->]];
      vm_compute; reflexivity.
Qed.

(** X1: A day is seventeen steps long: from every well-formed cursor,
    seventeen steps of [advanceTime] lead back to the same segment and
    slot count with the day raised by one, and no smaller positive number
    of steps leads back to the same segment and slot count. *)
Theorem stepTime_day_cycle (t : GameTime) :
  slots_ok t ->
  Nat.iter 17 stepTime t
  = {| day := day t + 1; segment := segment t; slotsUsed := slotsUsed t |}
  /\ forall k, (0 < k < 17)%nat ->
       (segment (Nat.iter k stepTime t), slotsUsed (Nat.iter k stepTime t))
       <> (segment t, slotsUsed t).
Proof.
  intros H. split.
  - destruct t as [d s n].
    destruct (slots_ok_cases _ H) as [[Hs Hn] | [Hs Hn]]; simpl in Hs, Hn.
    + subst n. destruct s; try discriminate; reflexivity.
    + destruct s; try discriminate;
        destruct Hn as [-> | [-> | ->]]; reflexivity.
  - intros k Hk Heq.
    change (cursor (Nat.iter k stepTime t) = cursor t) in Heq.
    rewrite cursor_iter in Heq.
    pose proof (returns_early_false t H) as Hf.
    apply not_true_iff_false in Hf. apply Hf.
    unfold returns_early. apply existsb_exists. exists k. split.
    + apply in_seq. lia.
    + apply bool_decide_eq_true. exact Heq.
Qed.

Lemma stepTime_day_cycle_witness :
  Nat.iter 17 stepTime (mkGameTime 3 EVENING 1) = mkGameTime 4 EVENING 1.
Proof.
  exact (proj1 (stepTime_day_cycle (mkGameTime 3 EVENING 1)
                  ltac:(unfold slots_ok; simpl; lia))).
Defined.

(** X2: The clock repairs a slot count that is too high: whatever the
    segment, one step from a cursor whose slot count is at least -1 gives
    a well-formed cursor. *)
Theorem stepTime_stabilises (t : GameTime) :
  -1 <= slotsUsed t -> slots_ok (stepTime t).
Proof.
  destruct t as [d s n]. unfold slots_ok, stepTime. simpl. intros H.
  destruct s; unfold advanceTime; simpl; try lia; try reflexivity;
    (destruct (n <? 2) eqn:E; simpl;
     [apply Z.ltb_lt in E; lia | first [lia | reflexivity]]).
Qed.

Lemma stepTime_stabilises_witness :
  slots_ok (stepTime (mkGameTime 0 DAWN 3)).
Proof.
  exact (stepTime_stabilises (mkGameTime 0 DAWN 3) ltac:(simpl; lia)).
Defined.

(** The day counter never goes back. *)
Lemma reachable_day_monotone (t0 t : GameTime) :
  reachable t0 t -> day t0 <= day t.
Proof.
  induction 1 as [| t Hr IH]; [lia |].
  unfold stepTime. simpl. destruct (tr_newDay _); lia.
Qed.

(** ** Equipment: conservation and exclusivity *)

Lemma equippedItems_app (e : Equipped) :
  equippedItems e
  = option_list (top e) ++ option_list (bottom e)
    ++ option_list (footwear e) ++ option_list (underwearTop e)
    ++ option_list (underwearBottom e) ++ option_list (accessory e)
    ++ option_list (fullBody e).
Proof.
  destruct e as [[?|] [?|] [?|] [?|] [?|] [?|] [?|]]; reflexivity.
Qed.

Lemma equippedItems_setSlot (e : Equipped) (k : SlotKey) (v : option Item) :
  option_list (getSlot e k) ++ equippedItems (setSlot e k v)
  ≡ₚ option_list v ++ equippedItems e.
Proof.
  rewrite !equippedItems_app. destruct k; simpl; solve_Permutation.
Qed.

Lemma displace_allItems (k : SlotKey) (o : Outfit) :
  (displace k o).1 ++ equippedItems (displace k o).2
  ≡ₚ o.1 ++ equippedItems o.2.
Proof.
  unfold displace. pose proof (equippedItems_setSlot o.2 k None) as H.
  destruct (getSlot o.2 k) as [it |]; simpl in *; [| reflexivity].
  rewrite <- app_assoc. apply Permutation_app_head. exact H.
Qed.

Lemma swapIn_allItems (k : SlotKey) (item : Item) (o : Outfit) :
  (swapIn k item o).1 ++ equippedItems (swapIn k item o).2
  ≡ₚ item :: o.1 ++ equippedItems o.2.
Proof.
  unfold swapIn. pose proof (equippedItems_setSlot o.2 k (Some item)) as H.
  destruct (getSlot o.2 k) as [it |]; simpl in *.
  - rewrite <- app_assoc. simpl. rewrite H. solve_Permutation.
  - rewrite H. solve_Permutation.
Qed.

(** X6: [handleEquip] neither loses nor duplicates an item: the items held
    afterwards, in the inventory or worn, are those held before, for
    every state and index. *)
Theorem handleEquip_allItems (s : GameState) (index : nat) :
  allItems (handleEquip s index) ≡ₚ allItems s.
Proof.
  unfold handleEquip, allItems.
  destruct (inventory s !! index) as [item |] eqn:Hi; [| reflexivity].
  cbn [withOutfit inventory equipped]. rewrite swapIn_allItems.
  assert (item :: delete index (inventory s) ≡ₚ inventory s) as Hd.
  { rewrite <- (take_drop_middle _ _ _ Hi) at 2.
    rewrite delete_take_drop. solve_Permutation. }
  destruct (String.eqb (item_type item) "FullBody");
    rewrite ?displace_allItems; simpl;
    exact (Permutation_app_tail (equippedItems (equipped s)) Hd).
Qed.

(** X7: [handleDevForceEquip] adds exactly the forced item to what the
    player holds; whatever it displaces goes to the inventory. *)
Theorem handleDevForceEquip_allItems (s : GameState) (item : Item) :
  allItems (handleDevForceEquip s item) ≡ₚ item :: allItems s.
Proof.
  unfold handleDevForceEquip, allItems.
  cbn [withOutfit inventory equipped]. rewrite swapIn_allItems.
  apply Permutation_cons; [reflexivity |].
  destruct (String.eqb (item_type item) "Top" || String.eqb (item_type item) "Bottom");
    destruct (String.eqb (item_type item) "FullBody");
    rewrite ?displace_allItems; reflexivity.
Qed.

Lemma getSlotFromType_FullBody : getSlotFromType "FullBody" = K_fullBody.
Proof. reflexivity. Qed.

Lemma getSlot_displace_eq (k : SlotKey) (o : Outfit) :
  getSlot (displace k o).2 k = None.
Proof.
  unfold displace. destruct (getSlot o.2 k) eqn:E; simpl;
    [apply getSlot_setSlot_eq | exact E].
Qed.

Lemma getSlot_displace_ne (k k' : SlotKey) (o : Outfit) :
  k <> k' -> getSlot (displace k o).2 k' = getSlot o.2 k'.
Proof.
  intros H. unfold displace. destruct (getSlot o.2 k); simpl;
    [apply getSlot_setSlot_ne, H | reflexivity].
Qed.

Lemma displace_inventory_incl (k : SlotKey) (o : Outfit) (x : Item) :
  x ∈ o.1 -> x ∈ (displace k o).1.
Proof.
  unfold displace. destruct (getSlot o.2 k); simpl; set_solver.
Qed.

Lemma displace_inventory_worn (k : SlotKey) (o : Outfit) (x : Item) :
  getSlot o.2 k = Some x -> x ∈ (displace k o).1.
Proof. unfold displace. intros ->. simpl. set_solver. Qed.

Lemma swapIn_inventory_incl (k : SlotKey) (item : Item) (o : Outfit) (x : Item) :
  x ∈ o.1 -> x ∈ (swapIn k item o).1.
Proof.
  unfold swapIn. destruct (getSlot o.2 k); simpl; set_solver.
Qed.

Lemma handleEquip_fullBody_slots
    (s : GameState) (index : nat) (item : Item) :
  inventory s !! index = Some item ->
  item_type item = "FullBody" ->
  top (equipped (handleEquip s index)) = None
  /\ bottom (equipped (handleEquip s index)) = None.
Proof.
  intros Hi Ht. unfold handleEquip. rewrite Hi, Ht.
  change (String.eqb "FullBody" "FullBody") with true.
  rewrite getSlotFromType_FullBody. cbn [withOutfit inventory equipped].
  set (o0 := (delete index (inventory s), equipped s) : Outfit).
  split.
  - change (getSlot (swapIn K_fullBody item
                       (displace K_bottom (displace K_top o0))).2 K_top = None).
    rewrite swapIn_other_slot, getSlot_displace_ne by discriminate.
    apply getSlot_displace_eq.
  - change (getSlot (swapIn K_fullBody item
                       (displace K_bottom (displace K_top o0))).2 K_bottom
            = None).
    rewrite swapIn_other_slot by discriminate. apply getSlot_displace_eq.
Qed.

(** X8: Equipping a full-body garment with [handleEquip] empties [top] and
    [bottom], puts the garment in [fullBody], and whatever was worn in
    [top], [bottom] or [fullBody] is in the inventory afterwards. *)
Theorem handleEquip_fullBody_vacates
    (s : GameState) (index : nat) (item : Item) :
  inventory s !! index = Some item ->
  item_type item = "FullBody" ->
  let s' := handleEquip s index in
  top (equipped s') = None
  /\ bottom (equipped s') = None
  /\ fullBody (equipped s') = Some item
  /\ forall worn,
       top (equipped s) = Some worn \/ bottom (equipped s) = Some worn
       \/ fullBody (equipped s) = Some worn ->
       worn ∈ inventory s'.
Proof.
  intros Hi Ht s'. subst s'. unfold handleEquip. rewrite Hi, Ht.
  change (String.eqb "FullBody" "FullBody") with true.
  rewrite getSlotFromType_FullBody. cbn [withOutfit inventory equipped].
  set (o0 := (delete index (inventory s), equipped s) : Outfit).
  set (o2 := displace K_bottom (displace K_top o0)).
  assert (getSlot o2.2 K_top = None) as Htop.
  { unfold o2. rewrite getSlot_displace_ne by discriminate.
    apply getSlot_displace_eq. }
  assert (getSlot o2.2 K_bottom = None) as Hbot by apply getSlot_displace_eq.
  assert (getSlot o2.2 K_fullBody = fullBody (equipped s)) as Hfb.
  { unfold o2. rewrite !getSlot_displace_ne by discriminate. reflexivity. }
  split; [| split; [| split]].
  - change (getSlot (swapIn K_fullBody item o2).2 K_top = None).
    rewrite swapIn_other_slot by discriminate. exact Htop.
  - change (getSlot (swapIn K_fullBody item o2).2 K_bottom = None).
    rewrite swapIn_other_slot by discriminate. exact Hbot.
  - reflexivity.
  - intros worn [Hw | [Hw | Hw]].
    + apply swapIn_inventory_incl. unfold o2.
      apply displace_inventory_incl, displace_inventory_worn. exact Hw.
    + apply swapIn_inventory_incl. unfold o2.
      apply displace_inventory_worn.
      rewrite getSlot_displace_ne by discriminate. exact Hw.
    + unfold swapIn. rewrite Hfb, Hw. simpl. set_solver.
Qed.

Lemma handleEquip_fullBody_vacates_witness :
  top (equipped (handleEquip (handleEquip wardrobeState 1) 1)) = None
  /\ top_blouse_silk_01 ∈ inventory (handleEquip (handleEquip wardrobeState 1) 1).
Proof.
  pose proof (handleEquip_fullBody_vacates (handleEquip wardrobeState 1) 1
                outfit_dress_sundress_01 eq_refl eq_refl) as (H1 & _ & _ & H4).
  split; [exact H1 |]. apply H4. left. reflexivity.
Defined.

Lemma getSlotFromType_cases (type : string) :
  (type = "Top" /\ getSlotFromType type = K_top)
  \/ (type = "Bottom" /\ getSlotFromType type = K_bottom)
  \/ (type = "FullBody" /\ getSlotFromType type = K_fullBody)
  \/ (type <> "Top" /\ type <> "Bottom" /\ type <> "FullBody"
      /\ getSlotFromType type <> K_top /\ getSlotFromType type <> K_bottom
      /\ getSlotFromType type <> K_fullBody).
Proof.
  unfold getSlotFromType.
  destruct (String.eqb_spec type "Top") as [-> | H1]; [auto |].
  destruct (String.eqb_spec type "Bottom") as [-> | H2]; [auto |].
  destruct (String.eqb_spec type "FullBody") as [-> | H3]; [auto 6 |].
  right; right; right.
  repeat (match goal with
          | |- context [String.eqb ?a ?b] => destruct (String.eqb a b)
          end); repeat split; congruence.
Qed.

Lemma eqb_neq_false (a b : string) : a <> b -> String.eqb a b = false.
Proof. intros H. destruct (String.eqb_spec a b); congruence. Qed.

(** X12: The slot mapping: each of the seven equipment slots is the image of
    exactly one of the seven type tags, and every other tag falls back to
    the accessory slot. *)
Theorem getSlotFromType_table :
  (forall k : SlotKey,
     exists type, type ∈ itemTypes /\ getSlotFromType type = k
       /\ forall type', type' ∈ itemTypes -> getSlotFromType type' = k ->
                        type' = type)
  /\ (forall type, type ∉ itemTypes -> getSlotFromType type = K_accessory).
Proof.
  split.
  - intros k.
    destruct k;
      [exists "Top" | exists "Bottom" | exists "Footwear"
       | exists "Underwear_Top" | exists "Underwear_Bottom"
       | exists "Accessory" | exists "FullBody"];
      (split; [unfold itemTypes; set_solver |]);
      (split; [reflexivity |]);
      intros type' Hin; unfold itemTypes in Hin;
      decompose_list_elem_of; subst; try reflexivity; discriminate.
  - intros type Hnot. unfold getSlotFromType.
    repeat (match goal with
            | |- context [String.eqb ?a ?b] =>
                destruct (String.eqb_spec a b) as [-> | ?];
                [exfalso; apply Hnot; unfold itemTypes; set_solver |]
            end).
    reflexivity.
Qed.

(** X9: The debug path keeps the full-body slot exclusive with top and
    bottom: from an outfit where they are not worn together, every forced
    item leaves an outfit where they are not worn together. *)
Theorem handleDevForceEquip_exclusive (s : GameState) (item : Item) :
  exclusive (equipped s) ->
  exclusive (equipped (handleDevForceEquip s item)).
Proof.
  intros Hex. unfold handleDevForceEquip. cbn [withOutfit equipped].
  set (o0 := (inventory s, equipped s) : Outfit).
  unfold exclusive.
  change (fullBody ?e) with (getSlot e K_fullBody).
  change (top ?e) with (getSlot e K_top).
  change (bottom ?e) with (getSlot e K_bottom).
  destruct (getSlotFromType_cases (item_type item))
    as [[Ht ->] | [[Ht ->] | [[Ht ->] | (H1 & H2 & H3 & K1 & K2 & K3)]]].
  - rewrite Ht. simpl orb. cbv iota.
    change (String.eqb "Top" "FullBody") with false. cbv iota.
    left. rewrite swapIn_other_slot by discriminate.
    apply getSlot_displace_eq.
  - rewrite Ht. change (String.eqb "Bottom" "FullBody") with false.
    change (String.eqb "Bottom" "Top" || String.eqb "Bottom" "Bottom")
      with true. cbv iota.
    left. rewrite swapIn_other_slot by discriminate.
    apply getSlot_displace_eq.
  - rewrite Ht. change (String.eqb "FullBody" "FullBody") with true.
    change (String.eqb "FullBody" "Top" || String.eqb "FullBody" "Bottom")
      with false. cbv iota.
    right. rewrite !swapIn_other_slot by discriminate. split.
    + rewrite getSlot_displace_ne by discriminate. apply getSlot_displace_eq.
    + apply getSlot_displace_eq.
  - rewrite (eqb_neq_false _ _ H1), (eqb_neq_false _ _ H2),
      (eqb_neq_false _ _ H3). simpl orb. cbv iota.
    rewrite !swapIn_other_slot by congruence. exact Hex.
Qed.

Lemma handleDevForceEquip_exclusive_witness :
  exclusive (equipped (handleDevForceEquip (handleEquip wardrobeState 2)
                         top_blouse_silk_01)).
Proof.
  apply (handleDevForceEquip_exclusive (handleEquip wardrobeState 2)
           top_blouse_silk_01).
  right. split; reflexivity.
Defined.

(** X10: When [handleEquip] keeps the exclusivity: from an outfit where the
    full-body slot is not worn together with top or bottom, equipping
    the item at [index] gives such an outfit again exactly when the item
    is no top or bottom, or the full-body slot is empty. *)
Theorem handleEquip_exclusive_iff
    (s : GameState) (index : nat) (item : Item) :
  exclusive (equipped s) ->
  inventory s !! index = Some item ->
  exclusive (equipped (handleEquip s index))
  <-> (getSlotFromType (item_type item) = K_top
       \/ getSlotFromType (item_type item) = K_bottom ->
       fullBody (equipped s) = None).
Proof.
  intros Hex Hi.
  destruct (getSlotFromType_cases (item_type item))
    as [[Ht Hk] | [[Ht Hk] | [[Ht Hk] | (H1 & H2 & H3 & K1 & K2 & K3)]]].
  - destruct (handleEquip_top_bottom_keeps_fullBody s index item Hi
                (or_introl Hk)) as [Hfb Hslot].
    rewrite Hk in Hslot. simpl in Hslot. unfold exclusive.
    rewrite Hfb, Hslot. split.
    + intros [H | [H _]]; [auto | discriminate].
    + intros H. left. apply H. left. exact Hk.
  - destruct (handleEquip_top_bottom_keeps_fullBody s index item Hi
                (or_intror Hk)) as [Hfb Hslot].
    rewrite Hk in Hslot. simpl in Hslot. unfold exclusive.
    rewrite Hfb, Hslot. split.
    + intros [H | [_ H]]; [auto | discriminate].
    + intros H. left. apply H. right. exact Hk.
  - destruct (handleEquip_fullBody_slots s index item Hi Ht)
      as (Ha & Hb). split.
    + intros _ [H | H]; rewrite Hk in H; discriminate.
    + intros _. right. split; assumption.
  - split; [intros _ [H | H]; contradiction |]. intros _.
    unfold handleEquip. rewrite Hi, (eqb_neq_false _ _ H3).
    cbn [withOutfit equipped]. unfold exclusive.
    change (fullBody ?e) with (getSlot e K_fullBody).
    change (top ?e) with (getSlot e K_top).
    change (bottom ?e) with (getSlot e K_bottom).
    rewrite !swapIn_other_slot by congruence. exact Hex.
Qed.

Lemma handleEquip_exclusive_iff_witness :
  ~ exclusive (equipped (handleEquip (handleEquip wardrobeState 2) 1)).
Proof.
  intros H.
  apply (handleEquip_exclusive_iff (handleEquip wardrobeState 2) 1
           top_blouse_silk_01 ltac:(right; split; reflexivity) eq_refl) in H.
  - discriminate H.
  - left. reflexivity.
Defined.

(** X11: Adding an item with [handleDevAdd] and equipping it from the end of
    the inventory is the forced equip, unless the item is a top or a
    bottom and a full-body garment is worn. *)
Theorem handleDevAdd_then_handleEquip (s : GameState) (item : Item) :
  (item_type item = "Top" \/ item_type item = "Bottom" ->
   fullBody (equipped s) = None) ->
  handleEquip (handleDevAdd s item) (length (inventory s))
  = handleDevForceEquip s item.
Proof.
  intros H. unfold handleEquip, handleDevAdd, handleDevForceEquip.
  cbn [inventory equipped]. rewrite list_lookup_middle by reflexivity.
  replace (delete (length (inventory s)) (inventory s ++ [item]))
    with (inventory s)
    by (rewrite delete_middle, app_nil_r; reflexivity).
  unfold withOutfit. cbn [stats time location history npcRelationships config].
  destruct (getSlotFromType_cases (item_type item))
    as [[Ht Hk] | [[Ht Hk] | [[Ht Hk] | (H1 & H2 & H3 & _)]]].
  - pose proof (H (or_introl Ht)) as Hf. rewrite Ht.
    destruct s as [st inv e tm loc h rels cfg]. destruct e.
    simpl in Hf. subst. reflexivity.
  - pose proof (H (or_intror Ht)) as Hf. rewrite Ht.
    destruct s as [st inv e tm loc h rels cfg]. destruct e.
    simpl in Hf. subst. reflexivity.
  - rewrite Ht. reflexivity.
  - rewrite (eqb_neq_false _ _ H1), (eqb_neq_false _ _ H2). reflexivity.
Qed.

Lemma handleDevAdd_then_handleEquip_witness :
  handleEquip (handleDevAdd wardrobeState outfit_dress_sundress_01) 3
  = handleDevForceEquip wardrobeState outfit_dress_sundress_01.
Proof.
  apply (handleDevAdd_then_handleEquip wardrobeState outfit_dress_sundress_01).
  intros _. reflexivity.
Defined.

(** X13: What never equips anything, and where a drop can land.
    [handleEquip] on an index outside the inventory returns the state as
    it is, and so does [handleDrop] without an index or with such an
    index.  For every drop, either the state is returned as it is, or
    the item at the index now sits in the slot it was dropped on, which
    is the slot of its type. *)
Theorem handleEquip_handleDrop_noop
    (s : GameState) (index : nat) (targetSlot : SlotKey) :
  ((length (inventory s) <= index)%nat ->
   handleEquip s index = s /\ handleDrop s (Some index) targetSlot = s)
  /\ handleDrop s None targetSlot = s
  /\ (handleDrop s (Some index) targetSlot = s
      \/ exists item,
           inventory s !! index = Some item
           /\ getSlotFromType (item_type item) = targetSlot
           /\ getSlot (equipped (handleDrop s (Some index) targetSlot))
                targetSlot = Some item).
Proof.
  split; [| split].
  - intros H. apply lookup_ge_None in H.
    unfold handleDrop, handleEquip. rewrite H. split; reflexivity.
  - reflexivity.
  - unfold handleDrop.
    destruct (inventory s !! index) as [item |] eqn:Hi; [| left; reflexivity].
    case_decide as Hk; [| left; reflexivity].
    right. exists item. split; [reflexivity |]. split; [exact Hk |].
    unfold handleEquip. rewrite Hi. cbn [withOutfit equipped]. rewrite <- Hk.
    unfold swapIn. cbn [snd]. apply getSlot_setSlot_eq.
Qed.

(** ** The stat aggregator *)

Lemma addItemStats_lookup (cur : gmap string num) (item : Item) (k : string) :
  addItemStats cur item !! k
  = (fun c => match item_stats item !! k with
              | Some v => num_add c v
              | None => c
              end) <$> cur !! k.
Proof.
  unfold addItemStats. revert k.
  apply (map_fold_weak_ind
    (fun r m => forall k,
       r !! k = (fun c => match m !! k with
                          | Some v => num_add c v
                          | None => c
                          end) <$> cur !! k)).
  - intros k. rewrite lookup_empty. destruct (cur !! k); reflexivity.
  - intros i x m r Hi IH k. unfold addModifier.
    destruct (decide (i = k)) as [<- | Hne].
    + rewrite lookup_insert_eq. specialize (IH i). rewrite Hi in IH.
      destruct (r !! i) as [c |] eqn:Hr.
      * rewrite lookup_insert_eq. destruct (cur !! i); simpl in *;
          [congruence | discriminate].
      * rewrite Hr. destruct (cur !! i); simpl in *;
          [discriminate | reflexivity].
    + rewrite (lookup_insert_ne m) by exact Hne.
      destruct (r !! i); [rewrite lookup_insert_ne by exact Hne |]; apply IH.
Qed.

Lemma fold_addItemStats_lookup (items : list Item) (cur : gmap string num)
    (k : string) :
  fold_left addItemStats items cur !! k
  = (fun c => fold_left num_add (modifiers k items) c) <$> cur !! k.
Proof.
  revert cur. induction items as [| it items IH]; intros cur; simpl.
  - destruct (cur !! k); reflexivity.
  - rewrite IH, addItemStats_lookup. unfold modifiers. simpl.
    destruct (cur !! k) as [c |]; [| reflexivity]. simpl.
    destruct (item_stats it !! k); reflexivity.
Qed.

(** X4: The effective value of a stat is its base value plus the modifiers
    that the worn items carry for it, added one after the other and not
    clamped; a stat that the base table lacks stays absent, whatever the
    items carry. *)
Theorem calculateStats_lookup (baseStats : gmap string num) (e : Equipped)
    (stat : string) :
  calculateStats baseStats e !! stat
  = (fun b => fold_left num_add (modifiers stat (equippedItems e)) b)
      <$> baseStats !! stat.
Proof.
  unfold calculateStats. generalize (equippedItems e). intros items.
  revert baseStats. induction items as [| it items IH]; intros baseStats.
  - simpl. destruct (baseStats !! stat); reflexivity.
  - cbn [fold_left]. rewrite IH, addItemStats_lookup. unfold modifiers.
    simpl. destruct (baseStats !! stat) as [b |]; [| reflexivity]. simpl.
    destruct (item_stats it !! stat); reflexivity.
Qed.

Lemma calculateStatsWith_num_add (baseStats : gmap string num) (e : Equipped) :
  calculateStatsWith num_add baseStats e = calculateStats baseStats e.
Proof. reflexivity. Qed.

Lemma addItemStatsWith_lookup (add : num -> num -> num)
    (cur : gmap string num) (item : Item) (k : string) :
  addItemStatsWith add cur item !! k
  = (fun c => match item_stats item !! k with
              | Some v => add c v
              | None => c
              end) <$> cur !! k.
Proof.
  unfold addItemStatsWith. revert k.
  apply (map_fold_weak_ind
    (fun r m => forall k,
       r !! k = (fun c => match m !! k with
                          | Some v => add c v
                          | None => c
                          end) <$> cur !! k)).
  - intros k. rewrite lookup_empty. destruct (cur !! k); reflexivity.
  - intros i x m r Hi IH k. unfold addModifierWith.
    destruct (decide (i = k)) as [<- | Hne].
    + rewrite lookup_insert_eq. specialize (IH i). rewrite Hi in IH.
      destruct (r !! i) as [c |] eqn:Hr.
      * rewrite lookup_insert_eq. destruct (cur !! i); simpl in *;
          [congruence | discriminate].
      * rewrite Hr. destruct (cur !! i); simpl in *;
          [discriminate | reflexivity].
    + rewrite (lookup_insert_ne m) by exact Hne.
      destruct (r !! i); [rewrite lookup_insert_ne by exact Hne |]; apply IH.
Qed.

Lemma calculateStatsWith_lookup (add : num -> num -> num)
    (baseStats : gmap string num) (e : Equipped) (stat : string) :
  calculateStatsWith add baseStats e !! stat
  = (fun b => fold_left add (modifiers stat (equippedItems e)) b)
      <$> baseStats !! stat.
Proof.
  unfold calculateStatsWith. generalize (equippedItems e). intros items.
  revert baseStats. induction items as [| it items IH]; intros baseStats.
  - simpl. destruct (baseStats !! stat); reflexivity.
  - cbn [fold_left]. rewrite IH, addItemStatsWith_lookup. unfold modifiers.
    simpl. destruct (baseStats !! stat) as [b |]; [| reflexivity]. simpl.
    destruct (item_stats it !! stat); reflexivity.
Qed.

Lemma num_add_swap (c x y : num) :
  num_add (num_add c x) y = num_add (num_add c y) x.
Proof. destruct c, x, y; simpl; try reflexivity. f_equal. lia. Qed.

Lemma fold_num_add_Permutation (l l' : list num) :
  l ≡ₚ l' -> forall c, fold_left num_add l c = fold_left num_add l' c.
Proof.
  induction 1 as [| x l l' _ IH | x y l | l l' l'' _ IH1 _ IH2];
    intros c; simpl.
  - reflexivity.
  - apply IH.
  - rewrite num_add_swap. reflexivity.
  - rewrite IH1. apply IH2.
Qed.

Lemma sum_abs_Permutation (l l' : list num) :
  l ≡ₚ l' ->
  foldr Z.add 0 (num_abs <$> l) = foldr Z.add 0 (num_abs <$> l').
Proof.
  induction 1 as [| x l l' _ IH | x y l | l l' l'' _ IH1 _ IH2];
    rewrite ?fmap_cons; cbn [foldr].
  - reflexivity.
  - rewrite IH. reflexivity.
  - lia.
  - rewrite IH1. exact IH2.
Qed.

Lemma sum_abs_nonneg (l : list num) : 0 <= foldr Z.add 0 (num_abs <$> l).
Proof.
  induction l as [| x l IH]; [simpl; lia |].
  rewrite fmap_cons. cbn [foldr]. destruct x; simpl; lia.
Qed.

(** Within 2^53 no sum is rounded: the sums of the doubles are the exact
    ones. *)
Lemma fold_double_add_exact (l : list num) (c : num) :
  num_abs c + foldr Z.add 0 (num_abs <$> l) <= 2 ^ 53 ->
  fold_left double_add l c = fold_left num_add l c.
Proof.
  revert c. induction l as [| x l IH]; intros c H; [reflexivity |].
  cbn [fold_left]. rewrite fmap_cons in H. cbn [foldr] in H.
  pose proof (sum_abs_nonneg l) as Hl.
  assert (double_add c x = num_add c x) as ->.
  { destruct c as [a |], x as [b |]; try reflexivity.
    simpl in *. rewrite round53_small; [reflexivity | lia]. }
  apply IH. destruct c as [a |], x as [b |]; simpl in *; lia.
Qed.

(** X5: As long as the sums stay within the integers that doubles hold
    exactly (base value and modifiers of every stat add up to at most
    2^53 in magnitude), the aggregate, computed with the sums of the
    doubles, does not depend on which slot an item is worn in nor on the
    order of the slots: two outfits with the same items give the same
    effective stats, which are those of the exact sums. *)
Theorem calculateStats_Permutation (baseStats : gmap string num)
    (e e' : Equipped) :
  exact_sums baseStats (equippedItems e) ->
  equippedItems e ≡ₚ equippedItems e' ->
  calculateStatsWith double_add baseStats e
  = calculateStatsWith double_add baseStats e'
  /\ calculateStatsWith double_add baseStats e = calculateStats baseStats e.
Proof.
  intros Hexact H.
  assert (forall e0, equippedItems e ≡ₚ equippedItems e0 ->
            calculateStatsWith double_add baseStats e0
            = calculateStats baseStats e) as Hall.
  { intros e0 H0. apply map_eq. intros k.
    rewrite <- calculateStatsWith_num_add, !calculateStatsWith_lookup.
    destruct (baseStats !! k) as [b |] eqn:Hb; [| reflexivity]. simpl. f_equal.
    assert (modifiers k (equippedItems e) ≡ₚ modifiers k (equippedItems e0))
      as Hm by (unfold modifiers; rewrite H0; reflexivity).
    rewrite fold_double_add_exact.
    - symmetry. apply fold_num_add_Permutation, Hm.
    - rewrite <- (sum_abs_Permutation _ _ Hm). exact (Hexact k b Hb). }
  rewrite (Hall e' H), (Hall e ltac:(reflexivity)). split; reflexivity.
Qed.

Lemma INITIAL_STATS_wardrobe_exact_sums :
  exact_sums INITIAL_STATS [top_blouse_silk_01; btm_pants_yoga_01].
Proof.
  intros stat b Hb.
  assert (num_abs b <= 100) as Hbound.
  { revert Hb. unfold INITIAL_STATS. cbn [list_to_map foldr fst snd].
    repeat (rewrite lookup_insert; case_decide;
            [intros [= <-]; simpl; lia |]).
    rewrite lookup_empty. discriminate. }
  assert (foldr Z.add 0
            (num_abs <$> modifiers stat [top_blouse_silk_01; btm_pants_yoga_01])
          <= 200) as Hmods.
  { unfold modifiers. cbn [omap list_omap].
    assert (forall it : Item,
              it = top_blouse_silk_01 \/ it = btm_pants_yoga_01 ->
              forall v, item_stats it !! stat = Some v -> num_abs v <= 100)
      as Hitem.
    { intros it [-> | ->] v; unfold top_blouse_silk_01, btm_pants_yoga_01;
        cbn [item_stats list_to_map foldr fst snd];
        repeat (rewrite lookup_insert; case_decide;
                [intros [= <-]; simpl; lia |]);
        rewrite lookup_empty; discriminate. }
    pose proof (Hitem top_blouse_silk_01 (or_introl eq_refl)) as H1.
    pose proof (Hitem btm_pants_yoga_01 (or_intror eq_refl)) as H2.
    destruct (item_stats top_blouse_silk_01 !! stat) as [v1 |];
      destruct (item_stats btm_pants_yoga_01 !! stat) as [v2 |];
      cbn [fmap list_fmap foldr];
      try specialize (H1 _ eq_refl); try specialize (H2 _ eq_refl); lia. }
  assert (2 ^ 53 = 9007199254740992) as Hc by reflexivity. lia.
Qed.

Lemma calculateStats_Permutation_witness :
  calculateStatsWith double_add INITIAL_STATS
    (mkEquipped (Some top_blouse_silk_01) (Some btm_pants_yoga_01)
       None None None None None)
  = calculateStatsWith double_add INITIAL_STATS
    (mkEquipped None None (Some btm_pants_yoga_01) None None
       (Some top_blouse_silk_01) None).
Proof.
  refine (proj1 (calculateStats_Permutation INITIAL_STATS
    (mkEquipped (Some top_blouse_silk_01) (Some btm_pants_yoga_01)
       None None None None None)
    (mkEquipped None None (Some btm_pants_yoga_01) None None
       (Some top_blouse_silk_01) None)
    INITIAL_STATS_wardrobe_exact_sums _)).
  simpl. apply Permutation_swap.
Defined.

(** Beyond 2^53 the order shows: from 2^53, adding 1 then 2 gives
    2^53 + 2, adding 2 then 1 gives 2^53 + 4. *)
Example double_add_order :
  fold_left double_add [Fin 1; Fin 2] (Fin (2 ^ 53)) = Fin (2 ^ 53 + 2)
  /\ fold_left double_add [Fin 2; Fin 1] (Fin (2 ^ 53)) = Fin (2 ^ 53 + 4).
Proof. split; vm_compute; reflexivity. Qed.

(** ** Relationships *)

Lemma applyRelChange_lookup_eq (rels : gmap string Relationship)
    (npc : string) (change : RelChange) :
  applyRelChange rels (npc, change) !! npc = entryResult rels npc change.
Proof.
  unfold applyRelChange, entryResult. destruct (rels !! npc) as [r |] eqn:E.
  - apply lookup_insert_eq.
  - destruct (inherited npc); [exact E | apply lookup_insert_eq].
Qed.

Lemma applyRelChange_lookup_ne (rels : gmap string Relationship)
    (npc : string) (change : RelChange) (k : string) :
  npc <> k -> applyRelChange rels (npc, change) !! k = rels !! k.
Proof.
  intros Hne. unfold applyRelChange. destruct (rels !! npc) as [r |] eqn:E.
  - apply lookup_insert_ne, Hne.
  - destruct (inherited npc); [reflexivity | apply lookup_insert_ne, Hne].
Qed.

Lemma bump_in_range (cur : num) (d : option num) :
  in_range cur -> in_range (bump cur d).
Proof.
  intros H. unfold bump. destruct d as [v |]; [| exact H].
  destruct (truthy v) eqn:Hv; [| exact H].
  destruct cur as [z |], v as [w |]; simpl in *;
    try tauto; try discriminate; lia.
Qed.

Lemma bumpRel_in_range (rel : Relationship) (change : RelChange) :
  rel_in_range rel -> rel_in_range (bumpRel rel change).
Proof.
  intros (H1 & H2 & H3). repeat split; apply bump_in_range; assumption.
Qed.

Lemma zeroRelationship_in_range : rel_in_range zeroRelationship.
Proof. repeat split; simpl; lia. Qed.

Lemma entryResult_in_range (rels : gmap string Relationship) (npc : string)
    (change : RelChange) (r : Relationship) :
  rels_in_range rels -> entryResult rels npc change = Some r -> rel_in_range r.
Proof.
  intros H. unfold entryResult. destruct (rels !! npc) as [r0 |] eqn:E.
  - intros [= <-]. apply bumpRel_in_range. exact (H npc r0 E).
  - destruct (inherited npc); [discriminate |]. intros [= <-].
    apply bumpRel_in_range, zeroRelationship_in_range.
Qed.

Lemma applyRelChange_in_range (rels : gmap string Relationship)
    (e : string * RelChange) :
  rels_in_range rels -> rels_in_range (applyRelChange rels e).
Proof.
  destruct e as [npc change]. intros H k r.
  destruct (decide (npc = k)) as [<- | Hne].
  - rewrite applyRelChange_lookup_eq. apply entryResult_in_range, H.
  - rewrite applyRelChange_lookup_ne by exact Hne. apply H.
Qed.

Lemma applyRelChanges_in_range (rels : gmap string Relationship) (u : Updates) :
  rels_in_range rels -> rels_in_range (applyRelChanges rels u).
Proof.
  unfold applyRelChanges. destruct (relationshipChanges u) as [entries |];
    [| auto].
  revert rels. induction entries as [| e entries IH]; intros rels H; simpl.
  - exact H.
  - apply IH, applyRelChange_in_range, H.
Qed.

(** X14: Relationship values stay in [0,100]: if every trust, attraction and
    familiarity lies in [0,100], so it does after the response update,
    for every delta, also for the characters the delta introduces. *)
Theorem commitResponse_rels_in_range
    (s : GameState) (narrativeText : string) (upd : option Updates) :
  rels_in_range (npcRelationships s) ->
  rels_in_range (npcRelationships (commitResponse s narrativeText upd)).
Proof.
  intros H. destruct upd as [u |]; simpl; [| exact H].
  apply applyRelChanges_in_range, H.
Qed.

Lemma commitResponse_rels_in_range_witness :
  rels_in_range
    (npcRelationships
       (commitResponse wardrobeState "A stranger nods at you."
          (Some (mkUpdates None
                   (Some [("NewNPC",
                           mkRelChange (Some (Fin 5)) (Some (Fin (-3)))
                             (Some (Fin 200)))])
                   None None None None)))).
Proof.
  apply (commitResponse_rels_in_range wardrobeState).
  intros npc r H. simpl in H. rewrite lookup_empty in H. discriminate H.
Defined.

Lemma fold_applyRelChange_other (entries : list (string * RelChange))
    (rels : gmap string Relationship) (k : string) :
  k ∉ entries.*1 -> fold_left applyRelChange entries rels !! k = rels !! k.
Proof.
  revert rels. induction entries as [| [npc change] entries IH];
    intros rels Hk; simpl.
  - reflexivity.
  - rewrite fmap_cons in Hk. apply not_elem_of_cons in Hk as [Hne Hk].
    rewrite IH by exact Hk. apply applyRelChange_lookup_ne.
    intros ->. apply Hne. reflexivity.
Qed.

Lemma entryResult_is_Some (rels : gmap string Relationship) (npc : string)
    (change : RelChange) :
  is_Some (entryResult rels npc change)
  <-> is_Some (rels !! npc) \/ inherited npc = false.
Proof.
  unfold entryResult. destruct (rels !! npc) as [r |].
  - split; eauto.
  - destruct (inherited npc).
    + split.
      * intros [x Hx]. discriminate Hx.
      * intros [[x Hx] | Hx]; discriminate.
    + split; eauto.
Qed.

Lemma fold_applyRelChange_is_Some (entries : list (string * RelChange))
    (rels : gmap string Relationship) (k : string) :
  is_Some (fold_left applyRelChange entries rels !! k)
  <-> is_Some (rels !! k) \/ (k ∈ entries.*1 /\ inherited k = false).
Proof.
  revert rels. induction entries as [| [npc change] entries IH];
    intros rels.
  - simpl. rewrite elem_of_nil. tauto.
  - cbn [fold_left]. rewrite fmap_cons. cbn [fst].
    rewrite IH, elem_of_cons. destruct (decide (npc = k)) as [<- | Hne].
    + rewrite applyRelChange_lookup_eq, entryResult_is_Some. tauto.
    + rewrite applyRelChange_lookup_ne by exact Hne. split.
      * intros [H | [H1 H2]]; auto.
      * intros [H | [[H | H] H2]]; auto. congruence.
Qed.

Lemma entryResult_favorite (rels : gmap string Relationship) (npc : string)
    (change : RelChange) (r r' : Relationship) :
  rels !! npc = Some r -> entryResult rels npc change = Some r' ->
  isFavorite r' = isFavorite r.
Proof.
  intros Hr. unfold entryResult. rewrite Hr. intros [= <-]. reflexivity.
Qed.

Lemma fold_applyRelChange_favorite (entries : list (string * RelChange))
    (rels : gmap string Relationship) (k : string) (r r' : Relationship) :
  rels !! k = Some r ->
  fold_left applyRelChange entries rels !! k = Some r' ->
  isFavorite r' = isFavorite r.
Proof.
  revert rels r. induction entries as [| [npc change] entries IH];
    intros rels r Hr; cbn [fold_left].
  - rewrite Hr. intros [= <-]. reflexivity.
  - destruct (decide (npc = k)) as [<- | Hne].
    + intros H.
      assert (applyRelChange rels (npc, change) !! npc
              = Some (bumpRel r change)) as E.
      { rewrite applyRelChange_lookup_eq. unfold entryResult.
        rewrite Hr. reflexivity. }
      rewrite (IH _ _ E H). reflexivity.
    + apply IH. rewrite applyRelChange_lookup_ne by exact Hne. exact Hr.
Qed.

Lemma fold_applyRelChange_entry (entries : list (string * RelChange))
    (rels : gmap string Relationship) (npc : string) (change : RelChange) :
  NoDup entries.*1 -> (npc, change) ∈ entries ->
  fold_left applyRelChange entries rels !! npc = entryResult rels npc change.
Proof.
  revert rels. induction entries as [| [n c] entries IH];
    intros rels Hnd Hin; [by apply elem_of_nil in Hin |].
  rewrite fmap_cons in Hnd. apply NoDup_cons in Hnd as [Hfresh Hnd].
  cbn [fold_left]. apply elem_of_cons in Hin as [[= <- <-] | Hin].
  - rewrite fold_applyRelChange_other by exact Hfresh.
    apply applyRelChange_lookup_eq.
  - assert (n <> npc) as Hne.
    { intros ->. apply Hfresh. apply (list_elem_of_fmap_2 fst _ _ Hin). }
    rewrite IH by assumption. unfold entryResult.
    rewrite applyRelChange_lookup_ne by exact Hne. reflexivity.
Qed.

(** X15: Character discovery.  After a delta with [relationshipChanges], the
    characters known are those known before and those the delta names
    under a name that is no inherited member ([constructor], [toString],
    ...): such a name, when unknown, gets no record.  A character the
    delta does not name keeps its record; no record loses or changes its
    favourite flag; and with key-unique entries, the record of a named
    character is its old record, or for a new character the zero record,
    with each sub-field bumped. *)
Theorem commitResponse_relationships
    (s : GameState) (narrativeText : JsValue) (u : Updates)
    (entries : list (string * RelChange)) :
  relationshipChanges u = Some entries ->
  let rels := npcRelationships s in
  let rels' := npcRelationships (commitResponse s narrativeText (Some u)) in
  (forall npc, is_Some (rels' !! npc)
               <-> is_Some (rels !! npc)
                   \/ (npc ∈ entries.*1 /\ inherited npc = false))
  /\ (forall npc, npc ∉ entries.*1 -> rels' !! npc = rels !! npc)
  /\ (forall npc r r', rels !! npc = Some r -> rels' !! npc = Some r' ->
        isFavorite r' = isFavorite r)
  /\ (NoDup entries.*1 ->
      forall npc change, (npc, change) ∈ entries ->
        (forall r, rels !! npc = Some r ->
           rels' !! npc = Some (bumpRel r change))
        /\ (rels !! npc = None -> inherited npc = false ->
            rels' !! npc = Some (bumpRel zeroRelationship change))
        /\ (rels !! npc = None -> inherited npc = true ->
            rels' !! npc = None)).
Proof.
  intros He rels rels'. subst rels rels'. simpl.
  unfold applyRelChanges. rewrite He. split; [| split; [| split]].
  - intros npc. apply fold_applyRelChange_is_Some.
  - intros npc. apply fold_applyRelChange_other.
  - intros npc r r'. apply fold_applyRelChange_favorite.
  - intros Hnd npc change Hin.
    rewrite (fold_applyRelChange_entry _ _ _ _ Hnd Hin). unfold entryResult.
    split; [| split].
    + intros r ->. reflexivity.
    + intros -> ->. reflexivity.
    + intros -> ->. reflexivity.
Qed.

Lemma commitResponse_relationships_witness :
  npcRelationships
    (commitResponse wardrobeState "A stranger nods at you."
       (Some (mkUpdates None
                (Some [("NewNPC",
                        mkRelChange (Some (Fin 5)) (Some (Fin (-3)))
                          (Some (Fin 200)))])
                None None None None))) !! "NewNPC"
  = Some (mkRelationship (Fin 5) (Fin 0) (Fin 100) None).
Proof.
  exact (proj1 (proj2 (proj2 (proj2 (proj2 (commitResponse_relationships
    wardrobeState "A stranger nods at you."
    (mkUpdates None
       (Some [("NewNPC",
               mkRelChange (Some (Fin 5)) (Some (Fin (-3))) (Some (Fin 200)))])
       None None None None)
    [("NewNPC", mkRelChange (Some (Fin 5)) (Some (Fin (-3))) (Some (Fin 200)))]
    eq_refl)))
    (NoDup_singleton _) "NewNPC"
    (mkRelChange (Some (Fin 5)) (Some (Fin (-3))) (Some (Fin 200)))
    (proj2 (list_elem_of_singleton _ _) eq_refl))) eq_refl eq_refl).
Defined.

(** An unknown character named like an inherited member is not
    discovered. *)
Example discover_constructor :
  applyRelChange ∅
    ("constructor", mkRelChange (Some (Fin 5)) None None)
  = ∅.
Proof. reflexivity. Qed.

Lemma bump_no_change (cur : num) (d : option num) :
  no_change d -> bump cur d = cur.
Proof. intros [-> | ->]; reflexivity. Qed.

Lemma bumpRel_no_change (rel : Relationship) (change : RelChange) :
  no_change (c_trust change) -> no_change (c_attraction change) ->
  no_change (c_familiarity change) ->
  bumpRel rel change = rel.
Proof.
  intros H1 H2 H3. unfold bumpRel. rewrite !bump_no_change by assumption.
  destruct rel; reflexivity.
Qed.

(** X16: Unlike a stat entry, a relationship entry whose sub-deltas are all
    absent or zero changes nothing for a known character, even when a
    value of its record lies outside [0,100].  For an unknown character
    it creates the zero record, unless the name is that of an inherited
    member, for which nothing changes. *)
Theorem applyRelChange_no_change (rels : gmap string Relationship)
    (npc : string) (change : RelChange) :
  no_change (c_trust change) -> no_change (c_attraction change) ->
  no_change (c_familiarity change) ->
  applyRelChange rels (npc, change)
  = match rels !! npc with
    | Some _ => rels
    | None => if inherited npc then rels else <[npc := zeroRelationship]> rels
    end.
Proof.
  intros H1 H2 H3. unfold applyRelChange.
  destruct (rels !! npc) as [r |] eqn:E;
    rewrite bumpRel_no_change by assumption; [| reflexivity].
  apply insert_id, E.
Qed.

Lemma applyRelChange_no_change_witness :
  applyRelChange {["Mitch" := mkRelationship (Fin 250) (Fin 0) (Fin 100) None]}
    ("Mitch", mkRelChange (Some (Fin 0)) None (Some (Fin 0)))
  = {["Mitch" := mkRelationship (Fin 250) (Fin 0) (Fin 100) None]}.
Proof.
  rewrite (applyRelChange_no_change _ "Mitch"
             (mkRelChange (Some (Fin 0)) None (Some (Fin 0)))
             (or_intror eq_refl) (or_introl eq_refl) (or_intror eq_refl)).
  rewrite lookup_singleton_eq. reflexivity.
Defined.

(** ** More of the response update *)

Lemma applyMoneyChange_finance (st : gmap string num) (u : Updates) (x : num) :
  st !! "FINANCE" = Some x ->
  applyMoneyChange st u !! "FINANCE"
  = Some (num_add x (or_zero (moneyChange u))).
Proof.
  intros H. unfold applyMoneyChange, or_zero.
  destruct (moneyChange u) as [m |].
  - destruct (truthy m).
    + rewrite lookup_insert_eq, H. reflexivity.
    + rewrite H. destruct x; simpl; [rewrite Z.add_0_r |]; reflexivity.
  - rewrite H. destruct x; simpl; [rewrite Z.add_0_r |]; reflexivity.
Qed.

(** X17: Order of the two writes to FINANCE within one delta: the stat entry
    is added and clamped first, the money change is then added without a
    clamp.  With FINANCE not named in [statChanges], it moves by the money
    change alone. *)
Theorem commitResponse_finance
    (s : GameState) (narrativeText : string) (u : Updates) (f : num) :
  stats s !! "FINANCE" = Some f ->
  let s' := commitResponse s narrativeText (Some u) in
  ((forall entries, statChanges u = Some entries -> "FINANCE" ∉ entries.*1) ->
   stats s' !! "FINANCE" = Some (num_add f (or_zero (moneyChange u))))
  /\ (forall entries d,
        statChanges u = Some entries -> NoDup entries.*1 ->
        ("FINANCE", d) ∈ entries ->
        stats s' !! "FINANCE"
        = Some (num_add (clamp100 (num_add f (or_zero d)))
                        (or_zero (moneyChange u)))).
Proof.
  intros Hf s'. subst s'. rewrite commitResponse_stats. split.
  - intros Hnot. apply applyMoneyChange_finance. unfold applyStatChanges.
    destruct (statChanges u) as [entries |] eqn:He; [| exact Hf].
    rewrite fold_applyStatChange_other; [exact Hf | eapply Hnot; reflexivity].
  - intros entries d He Hnd Hin. apply applyMoneyChange_finance.
    unfold applyStatChanges. rewrite He.
    apply fold_applyStatChange_entry; assumption.
Qed.

Lemma commitResponse_finance_witness :
  stats (commitResponse wardrobeState "You sell the car."
           (Some (mkUpdates (Some [("FINANCE", Some (Fin 500))])
                    None (Some (Fin 40)) None None None))) !! "FINANCE"
  = Some (Fin 140).
Proof.
  exact (proj2 (commitResponse_finance wardrobeState "You sell the car."
    (mkUpdates (Some [("FINANCE", Some (Fin 500))]) None (Some (Fin 40))
       None None None) (Fin 100) eq_refl)
    [("FINANCE", Some (Fin 500))] (Some (Fin 500)) eq_refl
    (NoDup_singleton _) (proj2 (list_elem_of_singleton _ _) eq_refl)).
Defined.

(** X18: What the response update never touches: for every delta, whatever
    its [itemGained] and [itemLost], the inventory, the outfit, the time
    and the configuration are unchanged; the history grows by exactly one
    entry of the model, not retracted; and the location changes only to
    a non-empty [locationChange], taken as it is. *)
Theorem commitResponse_frame
    (s : GameState) (narrativeText : string) (upd : option Updates) :
  let s' := commitResponse s narrativeText upd in
  inventory s' = inventory s
  /\ equipped s' = equipped s
  /\ time s' = time s
  /\ config s' = config s
  /\ history s' = history s ++ [mkHistoryEntry model narrativeText None]
  /\ location s'
     = match upd with
       | Some u =>
           match locationChange u with
           | Some l => if decide (l = "") then location s else l
           | None => location s
           end
       | None => location s
       end.
Proof.
  destruct upd as [u |]; simpl; repeat split.
  unfold applyLocationChange. destruct (locationChange u) as [l |];
    [| reflexivity].
  destruct (String.eqb_spec l ""); case_decide; congruence.
Qed.

(** ** Favourites *)

(** X19: [toggleFavorite] on an unknown character changes nothing.  On a
    known one it flips the truth value of the flag and touches no other
    character; toggling twice gives back the state when the record
    carried a flag, and leaves an explicit [false] when it carried none. *)
Theorem toggleFavorite_twice (s : GameState) (npcName : string) :
  (npcRelationships s !! npcName = None -> toggleFavorite s npcName = s)
  /\ (forall r, npcRelationships s !! npcName = Some r ->
        npcRelationships (toggleFavorite s npcName)
        = <[npcName := mkRelationship (trust r) (attraction r) (familiarity r)
                         (Some (notFavorite r))]> (npcRelationships s)
        /\ npcRelationships (toggleFavorite (toggleFavorite s npcName) npcName)
           = <[npcName := mkRelationship (trust r) (attraction r)
                            (familiarity r) (Some (negb (notFavorite r)))]>
               (npcRelationships s)
        /\ (is_Some (isFavorite r) ->
            toggleFavorite (toggleFavorite s npcName) npcName = s)).
Proof.
  destruct s as [st inv e tm loc h rels cfg]. cbn [npcRelationships]. split.
  - intros H. unfold toggleFavorite. cbn [npcRelationships]. rewrite H.
    reflexivity.
  - intros r H.
    set (r1 := mkRelationship (trust r) (attraction r) (familiarity r)
                 (Some (notFavorite r))).
    set (r2 := mkRelationship (trust r) (attraction r) (familiarity r)
                 (Some (negb (notFavorite r)))).
    assert (toggleFavorite (mkGameState st inv e tm loc h rels cfg) npcName
            = mkGameState st inv e tm loc h (<[npcName := r1]> rels) cfg)
      as E1.
    { unfold toggleFavorite. cbn [npcRelationships]. rewrite H. reflexivity. }
    assert (toggleFavorite
              (mkGameState st inv e tm loc h (<[npcName := r1]> rels) cfg)
              npcName
            = mkGameState st inv e tm loc h (<[npcName := r2]> rels) cfg)
      as E2.
    { unfold toggleFavorite. cbn [npcRelationships].
      rewrite lookup_insert_eq, insert_insert_eq. unfold r1, r2. cbn.
      destruct (notFavorite r); reflexivity. }
    rewrite E1, E2. cbn [npcRelationships].
    split; [reflexivity |]. split; [reflexivity |].
    intros [b Hb]. f_equal. apply insert_id. rewrite H. f_equal.
    unfold r2, notFavorite. rewrite Hb.
    destruct r as [t a f fav]; simpl in *; subst fav. destruct b; reflexivity.
Qed.

(** ** Turns *)

Lemma advanceTime_newDay_eq (s : TimeSegment) (n : Z) :
  tr_newDay (advanceTime s n) = bool_decide (s = POST_NIGHT).
Proof.
  destruct s; unfold advanceTime; simpl;
    try (destruct (n <? 2); simpl); reflexivity.
Qed.

(** X20: Sleep.  The first half of a turn advances the clock by one step and
    appends the player's entry.  When the turn starts in post-night,
    VITALITY gains 50 up to at most 100 and FATIGUE becomes 0, with every
    other stat as before; in every other segment the stats are as
    before. *)
Theorem beginTurn_effects
    (s : GameState) (textInput : string) (intent : option Intent) :
  let s' := beginTurn s textInput intent in
  time s' = stepTime (time s)
  /\ history s'
     = history s ++ [mkHistoryEntry user (userEntryText textInput intent) None]
  /\ (segment (time s) <> POST_NIGHT -> stats s' = stats s)
  /\ (segment (time s) = POST_NIGHT ->
      stats s' !! "FATIGUE" = Some (Fin 0)
      /\ (forall v, stats s !! "VITALITY" = Some (Fin v) ->
            stats s' !! "VITALITY" = Some (Fin (Z.min 100 (v + 50))))
      /\ (forall k, k <> "VITALITY" -> k <> "FATIGUE" ->
            stats s' !! k = stats s !! k)).
Proof.
  intros s'. subst s'. unfold beginTurn. cbn [time history stats].
  rewrite advanceTime_newDay_eq.
  split; [unfold stepTime; rewrite advanceTime_newDay_eq; reflexivity |].
  split; [reflexivity |]. split.
  - intros H. rewrite bool_decide_eq_false_2 by exact H. reflexivity.
  - intros H. rewrite bool_decide_eq_true_2 by exact H. unfold newDayStats.
    split; [apply lookup_insert_eq |]. split.
    + intros v Hv. rewrite lookup_insert_ne by discriminate.
      rewrite lookup_insert_eq, Hv. reflexivity.
    + intros k H1 H2. rewrite !lookup_insert_ne by congruence. reflexivity.
Qed.

Lemma newDayStats_in_range (st : gmap string num) :
  plain_stats_in_range st -> is_Some (st !! "VITALITY") ->
  plain_stats_in_range (newDayStats st)
  /\ is_Some (newDayStats st !! "VITALITY").
Proof.
  intros Hst [v Hv]. unfold newDayStats. split.
  - intros k x Hk Hplain. rewrite lookup_insert. case_decide as E1.
    + intros [= <-]. simpl. lia.
    + rewrite lookup_insert. case_decide as E2.
      * intros [= <-]. rewrite Hv.
        pose proof (Hst "VITALITY" v ltac:(discriminate) eq_refl Hv) as Hin.
        destruct v as [z |]; simpl in *; [lia | exact Hin].
      * apply Hst; assumption.
  - rewrite lookup_insert_ne by discriminate. rewrite lookup_insert_eq. eauto.
Qed.

Lemma beginTurn_state_ok (s : GameState) (textInput : string)
    (intent : option Intent) :
  state_ok s -> state_ok (beginTurn s textInput intent).
Proof.
  intros (Ht & Hs & Hv & Hr). unfold state_ok, beginTurn.
  cbn [time stats npcRelationships].
  split; [exact (stepTime_slots_ok _ Ht) |].
  destruct (tr_newDay _).
  - destruct (newDayStats_in_range _ Hs Hv) as [H1 H2]. auto.
  - auto.
Qed.

(** Without the new day, or when the updater runs at once, the snapshot
    is the state before the turn. *)
Lemma snapshotAt_before (late : bool) (s : GameState) (textInput : string)
    (intent : option Intent) :
  late = false \/ segment (time s) <> POST_NIGHT ->
  snapshotAt late s (beginTurn s textInput intent) = s.
Proof.
  intros H. unfold snapshotAt. destruct late; [| reflexivity].
  destruct H as [H | H]; [discriminate H |].
  unfold beginTurn. cbn [stats]. rewrite advanceTime_newDay_eq.
  rewrite bool_decide_eq_false_2 by exact H. destruct s; reflexivity.
Qed.

(** With the new day, an updater that runs at the next render copies the
    stats after the night. *)
Lemma snapshotAt_after (s : GameState) (textInput : string)
    (intent : option Intent) :
  segment (time s) = POST_NIGHT ->
  snapshotAt true s (beginTurn s textInput intent)
  = {| stats := newDayStats (stats s);
       inventory := inventory s;
       equipped := equipped s;
       time := time s;
       location := location s;
       history := history s;
       npcRelationships := npcRelationships s;
       config := config s |}.
Proof.
  intros H. unfold snapshotAt, beginTurn. cbn [stats].
  rewrite advanceTime_newDay_eq, bool_decide_eq_true_2 by exact H.
  reflexivity.
Qed.

Lemma JSON_copy_Some (s s' : GameState) : JSON_copy s = Some s' -> s' = s.
Proof.
  unfold JSON_copy. destruct (state_held s); [| discriminate].
  intros [= <-]. reflexivity.
Qed.

Lemma snapshotAt_state_ok (late : bool) (s : GameState) (textInput : string)
    (intent : option Intent) :
  state_ok s -> state_ok (snapshotAt late s (beginTurn s textInput intent)).
Proof.
  intros Hs. destruct late; [| exact Hs].
  pose proof (beginTurn_state_ok s textInput intent Hs) as (_ & H1 & H2 & _).
  destruct Hs as (Ht & _ & _ & Hr). unfold snapshotAt.
  split; [exact Ht |]. split; [exact H1 |]. split; [exact H2 | exact Hr].
Qed.

Lemma applyUpdates_state_ok (s : GameState) (u : Updates) :
  state_ok s -> state_ok (applyUpdates s u).
Proof.
  intros (Ht & Hs & Hv & Hr). unfold state_ok, applyUpdates.
  cbn [time stats npcRelationships].
  split; [exact Ht |]. split; [| split].
  - intros k v Hk Hplain. rewrite applyMoneyChange_other by exact Hk.
    unfold applyStatChanges. destruct (statChanges u) as [entries |].
    + exact (fold_applyStatChange_plain_in_range entries _ Hs k v Hk Hplain).
    + exact (Hs k v Hk Hplain).
  - rewrite applyMoneyChange_other by discriminate.
    unfold applyStatChanges. destruct (statChanges u) as [entries |];
      [| exact Hv].
    apply fold_applyStatChange_keeps, Hv.
  - apply applyRelChanges_in_range, Hr.
Qed.

Lemma appendHistory_state_ok (s : GameState) (entry : HistoryEntry) :
  state_ok s -> state_ok (appendHistory s entry).
Proof. intros H. exact H. Qed.

Lemma commitResponse_state_ok (s : GameState) (narrativeText : JsValue)
    (upd : option Updates) :
  state_ok s -> state_ok (commitResponse s narrativeText upd).
Proof.
  intros H. unfold commitResponse.
  destruct upd as [u |]; apply appendHistory_state_ok;
    [apply applyUpdates_state_ok |]; exact H.
Qed.

(** The response phase is the commit of some narrative and some delta. *)
Lemma handleResponse_Some (JSON_parse : string -> option JSON)
    (s : GameState) (responseText : string) (s' : GameState) :
  handleResponse JSON_parse s responseText = Some s' ->
  exists narrativeText upd, s' = commitResponse s narrativeText upd.
Proof.
  unfold handleResponse.
  destruct (parseResponse JSON_parse responseText) as [narrativeText updates].
  destruct (decodeUpdates updates) as [upd |]; [| discriminate].
  intros [= <-]. eauto.
Qed.

Lemma handleResponse_state_ok (JSON_parse : string -> option JSON)
    (s : GameState) (responseText : string) (s' : GameState) :
  handleResponse JSON_parse s responseText = Some s' ->
  state_ok s -> state_ok s'.
Proof.
  intros H Hs. apply handleResponse_Some in H as (narrativeText & upd & ->).
  apply commitResponse_state_ok, Hs.
Qed.

Lemma handleEquip_state_ok (s : GameState) (index : nat) :
  state_ok s -> state_ok (handleEquip s index).
Proof.
  intros H. unfold handleEquip. destruct (inventory s !! index); exact H.
Qed.

Lemma handleUndo_state_ok (stack : list GameState) (isProcessing : bool)
    (s : GameState) :
  state_ok s -> Forall state_ok stack ->
  state_ok (handleUndo stack isProcessing s).1
  /\ Forall state_ok (handleUndo stack isProcessing s).2.
Proof.
  intros Hs Hst. unfold handleUndo.
  destruct ((length stack =? 0)%nat || isProcessing); [auto |].
  destruct (last stack) as [prev |] eqn:E; [| auto]. simpl. split.
  - apply last_Some_elem_of in E.
    exact (proj1 (Forall_forall _ _) Hst prev E).
  - apply Forall_take, Hst.
Qed.

Lemma handleDevSlotClick_state_ok (devMode : bool) (s : GameState)
    (slotIndex : Z) :
  state_ok s -> state_ok (handleDevSlotClick devMode s slotIndex).
Proof.
  intros H. unfold handleDevSlotClick. destruct (negb devMode); [exact H |].
  destruct (slotIndex =? slotsUsed (time s)); [| exact H].
  destruct H as (Ht & Hs & Hv & Hr).
  split; [exact (stepTime_slots_ok _ Ht) | auto].
Qed.

Lemma toggleFavorite_state_ok (s : GameState) (npcName : string) :
  state_ok s -> state_ok (toggleFavorite s npcName).
Proof.
  intros H. unfold toggleFavorite.
  destruct (npcRelationships s !! npcName) as [r |] eqn:E; [| exact H].
  destruct H as (Ht & Hs & Hv & Hr).
  split; [exact Ht |]. split; [exact Hs |]. split; [exact Hv |].
  cbn [npcRelationships]. intros k x. rewrite lookup_insert.
  case_decide; [| apply Hr]. intros [= <-]. exact (Hr _ _ E).
Qed.

Lemma session_step_ok (JSON_parse : string -> option JSON)
    (c c' : list GameState * GameState) :
  session_step JSON_parse c c' ->
  Forall state_ok c.1 /\ state_ok c.2 ->
  Forall state_ok c'.1 /\ state_ok c'.2.
Proof.
  intros Hstep [Hst Hs]. destruct Hstep; simpl in *.
  - split; [| apply beginTurn_state_ok, Hs].
    unfold pushSnapshot. apply Forall_app. split; [exact Hst |].
    apply JSON_copy_Some in H. subst snapshot.
    apply Forall_singleton, snapshotAt_state_ok, Hs.
  - split; [exact Hst |].
    eapply handleResponse_state_ok; [eassumption | exact Hs].
  - split; [exact Hst | exact Hs].
  - split; [exact Hst | exact Hs].
  - destruct (handleUndo_state_ok stack isProcessing s Hs Hst). auto.
  - split; [exact Hst | apply handleEquip_state_ok, Hs].
  - split; [exact Hst |]. unfold handleDrop.
    destruct index as [i |]; [| exact Hs].
    destruct (inventory s !! i); [| exact Hs].
    case_decide; [apply handleEquip_state_ok |]; exact Hs.
  - split; [exact Hst | exact Hs].
  - split; [exact Hst | exact Hs].
  - split; [exact Hst | apply toggleFavorite_state_ok, Hs].
  - split; [exact Hst | apply handleDevSlotClick_state_ok, Hs].
Qed.

Lemma initRelationships_in_range : rels_in_range initRelationships.
Proof.
  unfold initRelationships.
  assert (forall names rels,
            rels_in_range rels ->
            rels_in_range
              (fold_left
                 (fun rels name =>
                    <[name := default zeroRelationship
                                (STARTING_RELATIONSHIPS !! name)]> rels)
                 names rels)) as H.
  { induction names as [| n names IH]; intros rels Hr; simpl; [exact Hr |].
    apply IH. intros k r. rewrite lookup_insert. case_decide; [| apply Hr].
    intros [= <-]. unfold STARTING_RELATIONSHIPS.
    cbn [list_to_map foldr fst snd].
    repeat (rewrite lookup_insert; case_decide;
            [simpl; unfold rel_in_range; simpl; lia |]).
    rewrite lookup_empty. exact zeroRelationship_in_range. }
  apply H. intros k r Hk. rewrite lookup_empty in Hk. discriminate Hk.
Qed.

Lemma new_game_state_ok (cfg : GameConfig) :
  state_ok (handleNewGameConfig INITIAL_GAME_STATE cfg).
Proof.
  split; [| split; [| split]].
  - unfold slots_ok. simpl. reflexivity.
  - intros k v Hk _. exact (INITIAL_STATS_in_range k v Hk).
  - cbn. eexists. reflexivity.
  - exact initRelationships_in_range.
Qed.

(** X21: The invariants of a game.  Start a new game with any configuration
    and run any sequence of handler calls (turn halves, error notices,
    undo, equip, drop, the debug equip, add and slot click, favourites),
    with any answers of the engine that the model covers and the
    snapshots taken at either moment: in the state reached and in every
    snapshot of the undo stack, the slot count fits the segment, every
    relationship value and every stat lies in [0,100], FINANCE and the
    stats under the name of an inherited member apart, and VITALITY is
    present. *)
Theorem session_invariant
    (JSON_parse : string -> option JSON) (cfg : GameConfig)
    (c : list GameState * GameState) :
  rtc (session_step JSON_parse)
      ([], handleNewGameConfig INITIAL_GAME_STATE cfg) c ->
  state_ok c.2 /\ Forall state_ok c.1.
Proof.
  intros Hrun.
  assert (Forall state_ok c.1 /\ state_ok c.2) as [H1 H2]; [| auto].
  revert c Hrun.
  apply (rtc_ind_r (fun c => Forall state_ok c.1 /\ state_ok c.2)).
  - simpl. split; [constructor | apply new_game_state_ok].
  - intros c c' _ Hstep IH. exact (session_step_ok JSON_parse _ _ Hstep IH).
Qed.

Lemma session_invariant_witness :
  state_ok
    (commitResponse
       (beginTurn
          (handleNewGameConfig INITIAL_GAME_STATE
             (mkGameConfig false Light false true))
          "Look around." None)
       None (Some (statDelta "constructor" 1))).
Proof.
  set (JSON_parse :=
         parseOnly "?" (JObj [("updates",
                               JObj [("statChanges",
                                      JObj [("constructor", JNum 1)])])])).
  set (s0 := handleNewGameConfig INITIAL_GAME_STATE
               (mkGameConfig false Light false true)).
  set (s1 := beginTurn s0 "Look around." None).
  refine (proj1 (session_invariant JSON_parse
    (mkGameConfig false Light false true)
    (pushSnapshot [] (snapshotAt true s0 s1),
     commitResponse s1 None (Some (statDelta "constructor" 1))) _)).
  apply (rtc_l _ _ (pushSnapshot [] (snapshotAt true s0 s1), s1)).
  - apply (step_begin JSON_parse true [] s0 "Look around." None).
    vm_compute. reflexivity.
  - apply rtc_once. apply (step_response JSON_parse _ s1 "?"). reflexivity.
Defined.

(** ** Undo *)

Lemma handleUndo_snoc (stack : list GameState) (S S' : GameState) :
  handleUndo (stack ++ [S]) false S'
  = (restored S (history S ++
                 map retract (drop (length (history S)) (history S'))),
     stack).
Proof.
  unfold handleUndo. rewrite length_app, last_snoc. simpl.
  replace (length stack + 1 =? 0)%nat with false
    by (symmetry; apply Nat.eqb_neq; lia).
  simpl. replace (length stack + 1 - 1)%nat with (length stack) by lia.
  rewrite take_app_length. reflexivity.
Qed.

Lemma handleResponse_history (JSON_parse : string -> option JSON)
    (s : GameState) (responseText : string) (s' : GameState) :
  handleResponse JSON_parse s responseText = Some s' ->
  time s' = time s
  /\ exists answer : JsValue,
       history s' = history s ++ [mkHistoryEntry model answer None].
Proof.
  intros H. apply handleResponse_Some in H as (narrativeText & upd & ->).
  split; [destruct upd; reflexivity |].
  exists narrativeText. destruct upd; reflexivity.
Qed.

(** The second half of a whole turn: the clock of [newState] and one
    more entry. *)
Lemma processTurn_Some (JSON_parse : string -> option JSON)
    (late : bool) (reply : option string) (stack : list GameState)
    (s : GameState) (textInput : string) (intent : option Intent)
    (r : list GameState * GameState) :
  processTurn JSON_parse late true reply stack s textInput intent = Some r ->
  r.1 = stack ++ [snapshotAt late s (beginTurn s textInput intent)]
  /\ time r.2 = stepTime (time s)
  /\ exists answer : JsValue,
       history r.2
       = history s ++
         [mkHistoryEntry user (userEntryText textInput intent) None;
          mkHistoryEntry model answer None].
Proof.
  unfold processTurn. cbn [negb]. unfold pushSnapshot.
  assert (time (beginTurn s textInput intent) = stepTime (time s)) as Ht.
  { unfold beginTurn, stepTime. cbn [time]. reflexivity. }
  destruct (JSON_copy (snapshotAt late s (beginTurn s textInput intent)))
    as [snapshot |] eqn:Hcopy; [| discriminate].
  apply JSON_copy_Some in Hcopy. subst snapshot. cbn [mbind option_bind].
  destruct reply as [responseText |].
  - destruct (handleResponse JSON_parse (beginTurn s textInput intent)
                responseText) as [s' |] eqn:E; [| discriminate].
    intros [= <-]. cbn [fst snd].
    destruct (handleResponse_history _ _ _ _ E) as (Ht' & answer & Hh).
    split; [reflexivity |]. split; [congruence |].
    exists answer. rewrite Hh. cbn [beginTurn history].
    rewrite <- app_assoc. reflexivity.
  - intros [= <-]. cbn [fst snd]. split; [reflexivity |].
    split; [exact Ht |]. eexists.
    cbn [appendHistory beginTurn history]. rewrite <- app_assoc. reflexivity.
Qed.

(** X22: A whole turn and its undo.  After [processTurn] with a key, whatever
    the engine answered (a delta, text that does not parse, or nothing at
    all), [handleUndo] gives back the stack before the turn and the
    snapshot that the turn took, with its stats, time, location,
    relationships, inventory and outfit; the history is the one before
    the turn followed by the player's entry and the engine's entry,
    whatever value its text has, both retracted.  The snapshot is the
    state before the turn unless the turn starts in post-night and the
    snapshot is taken at the next render: the stats that come back are
    then those after the night, with the gain of VITALITY and FATIGUE at
    0, the other fields being those of the state before the turn. *)
Theorem processTurn_then_undo
    (JSON_parse : string -> option JSON) (late : bool)
    (reply : option string) (stack : list GameState) (s : GameState)
    (textInput : string) (intent : option Intent)
    (r : list GameState * GameState) :
  processTurn JSON_parse late true reply stack s textInput intent = Some r ->
  let snapshot := snapshotAt late s (beginTurn s textInput intent) in
  (exists answer : JsValue,
     handleUndo r.1 false r.2
     = (restored snapshot
          (history s ++
           [mkHistoryEntry user (userEntryText textInput intent) (Some true);
            mkHistoryEntry model answer (Some true)]),
        stack))
  /\ (late = false \/ segment (time s) <> POST_NIGHT -> snapshot = s)
  /\ (late = true -> segment (time s) = POST_NIGHT ->
      stats snapshot = newDayStats (stats s)
      /\ inventory snapshot = inventory s
      /\ equipped snapshot = equipped s
      /\ time snapshot = time s
      /\ location snapshot = location s
      /\ history snapshot = history s
      /\ npcRelationships snapshot = npcRelationships s
      /\ config snapshot = config s).
Proof.
  intros H snapshot. split; [| split].
  - destruct (processTurn_Some _ _ _ _ _ _ _ _ H) as (Hst & _ & answer & Hh).
    exists answer. rewrite Hst, handleUndo_snoc. fold snapshot.
    assert (history snapshot = history s) as Hsnap.
    { subst snapshot. unfold snapshotAt. destruct late; reflexivity. }
    rewrite Hsnap, Hh, drop_app_length. reflexivity.
  - apply snapshotAt_before.
  - intros -> Hnight. subst snapshot.
    rewrite (snapshotAt_after _ _ _ Hnight). repeat split; reflexivity.
Qed.

(** After the night, a snapshot taken at the next render brings back
    VITALITY 80 and FATIGUE 0 where the turn started from 30 and 80. *)
Lemma processTurn_then_undo_witness :
  exists r,
    processTurn (parseOnly moneyOnlyText moneyOnlyJSON) true true None []
      nightState "Sleep." None = Some r
    /\ stats nightState !! "VITALITY" = Some (Fin 30)
    /\ stats (snapshotAt true nightState (beginTurn nightState "Sleep." None))
         !! "VITALITY" = Some (Fin 80)
    /\ (handleUndo r.1 false r.2).2 = [].
Proof.
  eexists. split; [reflexivity |].
  split; [reflexivity |].
  destruct (processTurn_then_undo (parseOnly moneyOnlyText moneyOnlyJSON)
              true None [] nightState "Sleep." None _ eq_refl)
    as ((answer & Hundo) & _ & Hnight).
  split.
  - rewrite (proj1 (Hnight eq_refl eq_refl)). reflexivity.
  - rewrite Hundo. reflexivity.
Defined.

(** X23: What a turn costs.  With a key set, [processTurn] pushes one
    snapshot on the stack, spends one step of the clock and appends two
    entries, whether the engine answers or the call fails; when the call
    fails, and when the answer is no JSON, it does return, for a state
    that JSON holds.  The snapshot
    is the state before the turn, except for the stats when the turn
    starts in post-night and the snapshot is taken at the next render.
    Without a key the turn appends one notice: the clock, the stack and
    all other fields stay. *)
Theorem processTurn_cost
    (JSON_parse : string -> option JSON)
    (late hasKey : bool) (reply : option string) (stack : list GameState)
    (s : GameState) (textInput : string) (intent : option Intent) :
  let result :=
    processTurn JSON_parse late hasKey reply stack s textInput intent in
  (hasKey = true ->
   (forall r, result = Some r ->
      r.1 = stack ++ [snapshotAt late s (beginTurn s textInput intent)]
      /\ (late = false \/ segment (time s) <> POST_NIGHT ->
          r.1 = stack ++ [s])
      /\ time r.2 = stepTime (time s)
      /\ length (history r.2) = (length (history s) + 2)%nat
      /\ history r.2 !! length (history s)
         = Some (mkHistoryEntry user (userEntryText textInput intent) None))
   /\ (state_held (snapshotAt late s (beginTurn s textInput intent)) = true ->
       reply = None
       \/ (exists responseText,
             reply = Some responseText /\ JSON_parse responseText = None) ->
       is_Some result))
  /\ (hasKey = false -> result = Some (stack, appendHistory s missingKeyNotice)).
Proof.
  intros result. subst result. split; [| intros ->; reflexivity].
  intros ->. split.
  - intros r H.
    destruct (processTurn_Some _ _ _ _ _ _ _ _ H) as (Hst & Ht & answer & Hh).
    split; [exact Hst |]. split.
    { intros Hb. rewrite Hst, snapshotAt_before by exact Hb. reflexivity. }
    split; [exact Ht |]. rewrite Hh, length_app.
    split; [simpl; lia |]. apply list_lookup_middle. reflexivity.
  - unfold processTurn, JSON_copy. cbn [negb]. intros ->.
    cbn [mbind option_bind].
    intros [-> | (responseText & -> & Hp)]; [eauto |].
    unfold handleResponse, parseResponse. rewrite Hp. simpl. eauto.
Qed.

Lemma processTurn_cost_witness :
  exists r,
    processTurn (parseOnly moneyOnlyText moneyOnlyJSON) false true
      (Some moneyOnlyText) [] wardrobeState "Buy a coffee." None = Some r
    /\ r.1 = [wardrobeState]
    /\ length (history r.2) = 2%nat.
Proof.
  destruct (processTurn (parseOnly moneyOnlyText moneyOnlyJSON) false true
              (Some moneyOnlyText) [] wardrobeState "Buy a coffee." None)
    as [r |] eqn:E; [| vm_compute in E; discriminate E].
  exists r. split; [reflexivity |].
  destruct (proj1 (proj1 (processTurn_cost
                            (parseOnly moneyOnlyText moneyOnlyJSON) false true
                            (Some moneyOnlyText) [] wardrobeState
                            "Buy a coffee." None) eq_refl) r E)
    as (_ & Hst & _ & Hlen & _).
  split; [exact (Hst (or_introl eq_refl)) | exact Hlen].
Defined.

(** X24: Undo is append-only on the history.  For every stack and state the
    history after [handleUndo] is at least as long as before; and when
    the current history extends that of the snapshot on top of the stack,
    the texts and roles of all entries are kept, in order. *)
Theorem handleUndo_append_only
    (stack : list GameState) (isProcessing : bool) (s : GameState) :
  let r := handleUndo stack isProcessing s in
  (length (history s) <= length (history r.1))%nat
  /\ (forall S, last stack = Some S -> history S `prefix_of` history s ->
        map text (history r.1) = map text (history s)
        /\ map role (history r.1) = map role (history s)).
Proof.
  intros r. subst r. destruct isProcessing.
  { rewrite handleUndo_noop by auto. simpl. split; [lia | auto]. }
  destruct (last stack) as [prev |] eqn:E.
  - apply last_Some in E as [l ->]. rewrite handleUndo_snoc.
    cbn [fst restored history]. split.
    + rewrite length_app, length_map, length_drop. lia.
    + intros S HS [k Hk]. injection HS as <-.
      rewrite Hk, drop_app_length, !map_app, !map_map. simpl.
      split; reflexivity.
  - apply last_None in E. subst stack. simpl. split; [lia |].
    intros S HS. discriminate HS.
Qed.

Lemma handleUndo_append_only_witness :
  map text (history (handleUndo [wardrobeState] false
                       (beginTurn wardrobeState "Look around." None)).1)
  = [ofString "Look around."].
Proof.
  exact (proj1 (proj2 (handleUndo_append_only [wardrobeState] false
                         (beginTurn wardrobeState "Look around." None))
                  wardrobeState eq_refl (prefix_nil _))).
Defined.

(** X25: Two turns, two undos.  With snapshots [S1] and [S2] on top of the
    stack, where the history of [S2] extends that of [S1] and the current
    history extends that of [S2], undoing twice gives [S1] with its own
    history followed by all later entries, each retracted once, and pops
    both snapshots. *)
Theorem handleUndo_twice
    (stack : list GameState) (S1 S2 S3 : GameState)
    (a b : list HistoryEntry) :
  history S2 = history S1 ++ a ->
  history S3 = history S2 ++ b ->
  let r1 := handleUndo (stack ++ [S1; S2]) false S3 in
  let r2 := handleUndo r1.2 false r1.1 in
  r2 = (restored S1 (history S1 ++ map retract (a ++ b)), stack).
Proof.
  intros Ha Hb r1 r2. subst r2 r1.
  change (stack ++ [S1; S2]) with (stack ++ [S1] ++ [S2]).
  rewrite app_assoc, handleUndo_snoc. cbn [fst snd].
  rewrite handleUndo_snoc. f_equal. unfold restored at 1. f_equal.
  cbn [restored history]. rewrite Hb, drop_app_length, Ha.
  rewrite <- app_assoc, drop_app_length, !map_app, map_map. reflexivity.
Qed.

Lemma handleUndo_twice_witness :
  let S2 := beginTurn wardrobeState "Look around." None in
  let S3 := beginTurn S2 "Open the door." None in
  (handleUndo (handleUndo [wardrobeState; S2] false S3).2 false
     (handleUndo [wardrobeState; S2] false S3).1).1
  = restored wardrobeState
      [mkHistoryEntry user "Look around." (Some true);
       mkHistoryEntry user "Open the door." (Some true)].
Proof.
  intros S2 S3.
  exact (f_equal fst (handleUndo_twice [] wardrobeState S2 S3
           [mkHistoryEntry user "Look around." None]
           [mkHistoryEntry user "Open the door." None] eq_refl eq_refl)).
Defined.

(** ** Save slots *)

Lemma findSlot_insertSlot (i : Z) (x : SaveSlot) (l : list SaveSlot) :
  findSlot i (insertSlot x l)
  = if slot_id x =? i then Some x else findSlot i l.
Proof.
  unfold findSlot. induction l as [| y l IH]; simpl.
  - destruct (slot_id x =? i); reflexivity.
  - destruct (slot_id y <? slot_id x) eqn:Hlt; simpl.
    + rewrite IH. destruct (slot_id x =? i) eqn:Hx; [| reflexivity].
      apply Z.eqb_eq in Hx. apply Z.ltb_lt in Hlt.
      destruct (slot_id y =? i) eqn:Hy; [| reflexivity].
      apply Z.eqb_eq in Hy. lia.
    + reflexivity.
Qed.

Lemma findSlot_sortSlots (i : Z) (l : list SaveSlot) :
  findSlot i (sortSlots l) = findSlot i l.
Proof.
  induction l as [| x l IH]; [reflexivity |].
  change (sortSlots (x :: l)) with (insertSlot x (sortSlots l)).
  rewrite findSlot_insertSlot, IH. reflexivity.
Qed.

Lemma findSlot_filter_same (i : Z) (l : list SaveSlot) :
  findSlot i (List.filter (fun s => negb (slot_id s =? i)) l) = None.
Proof.
  unfold findSlot. induction l as [| x l IH]; [reflexivity |]. simpl.
  destruct (slot_id x =? i) eqn:E; simpl; [exact IH |]. rewrite E. exact IH.
Qed.

Lemma findSlot_filter_other (i j : Z) (l : list SaveSlot) :
  i <> j ->
  findSlot j (List.filter (fun s => negb (slot_id s =? i)) l) = findSlot j l.
Proof.
  intros Hne. unfold findSlot. induction l as [| x l IH]; [reflexivity |].
  simpl. destruct (slot_id x =? i) eqn:E; simpl.
  - apply Z.eqb_eq in E.
    replace (slot_id x =? j) with false by (symmetry; apply Z.eqb_neq; lia).
    exact IH.
  - destruct (slot_id x =? j); [reflexivity | exact IH].
Qed.

Lemma findSlot_app (i : Z) (l k : list SaveSlot) :
  findSlot i (l ++ k)
  = match findSlot i l with Some s => Some s | None => findSlot i k end.
Proof.
  unfold findSlot. induction l as [| x l IH]; [reflexivity |]. simpl.
  destruct (slot_id x =? i); [reflexivity | exact IH].
Qed.

(** X26: Save and load.  After [saveGame] on slot [id], looking slot [id] up
    finds the new slot, so loading it gives back the state that was
    saved; the lookup of every other slot number gives what it gave
    before. *)
Theorem saveGame_findSlot
    (now : string) (id : Z) (slots : list SaveSlot) (currentState : GameState) :
  let slots' := saveGame now id slots currentState in
  findSlot id slots'
  = Some (mkSaveSlot id ("Save Slot " +:+ pretty id) now currentState)
  /\ (forall gameState, loadGame id slots' gameState = currentState)
  /\ (forall id', id' <> id -> findSlot id' slots' = findSlot id' slots).
Proof.
  intros slots'. subst slots'. unfold saveGame.
  assert (findSlot id
            (sortSlots
               (List.filter (fun s => negb (slot_id s =? id)) slots ++
                [mkSaveSlot id ("Save Slot " +:+ pretty id) now currentState]))
          = Some (mkSaveSlot id ("Save Slot " +:+ pretty id) now currentState))
    as H.
  { rewrite findSlot_sortSlots, findSlot_app, findSlot_filter_same.
    unfold findSlot. simpl. rewrite Z.eqb_refl. reflexivity. }
  split; [exact H |]. split.
  - intros gameState. unfold loadGame. rewrite H. reflexivity.
  - intros id' Hne.
    rewrite findSlot_sortSlots, findSlot_app, findSlot_filter_other
      by congruence.
    destruct (findSlot id' slots); [reflexivity |].
    unfold findSlot. simpl.
    replace (id =? id') with false by (symmetry; apply Z.eqb_neq; lia).
    reflexivity.
Qed.

Lemma insertSlot_Permutation (x : SaveSlot) (l : list SaveSlot) :
  insertSlot x l ≡ₚ x :: l.
Proof.
  induction l as [| y l IH]; [reflexivity |]. simpl.
  destruct (slot_id y <? slot_id x); [| reflexivity].
  rewrite IH. apply Permutation_swap.
Qed.

Lemma sortSlots_Permutation (l : list SaveSlot) : sortSlots l ≡ₚ l.
Proof.
  induction l as [| x l IH]; [reflexivity |].
  change (sortSlots (x :: l)) with (insertSlot x (sortSlots l)).
  rewrite insertSlot_Permutation, IH. reflexivity.
Qed.

Lemma insertSlot_Sorted (x : SaveSlot) (l : list SaveSlot) :
  Sorted Z.le (map slot_id l) -> Sorted Z.le (map slot_id (insertSlot x l)).
Proof.
  induction l as [| y l IH]; intros H; simpl.
  - repeat constructor.
  - inversion H as [| ? ? Hs Hhd]; subst.
    destruct (slot_id y <? slot_id x) eqn:Hlt; simpl.
    + apply Z.ltb_lt in Hlt. constructor; [apply IH, Hs |].
      destruct l as [| z l]; simpl.
      * constructor. lia.
      * destruct (slot_id z <? slot_id x); simpl; constructor;
          [inversion Hhd; subst; assumption | lia].
    + apply Z.ltb_ge in Hlt. constructor; [exact H |]. constructor. lia.
Qed.

Lemma sortSlots_Sorted (l : list SaveSlot) :
  Sorted Z.le (map slot_id (sortSlots l)).
Proof.
  induction l as [| x l IH]; [constructor |].
  change (sortSlots (x :: l)) with (insertSlot x (sortSlots l)).
  apply insertSlot_Sorted, IH.
Qed.

Lemma List_filter_Permutation (P : SaveSlot -> bool) (l l' : list SaveSlot) :
  l ≡ₚ l' -> List.filter P l ≡ₚ List.filter P l'.
Proof.
  induction 1 as [| x l l' _ IH | x y l | l l' l'' _ IH1 _ IH2]; simpl.
  - reflexivity.
  - destruct (P x); [apply Permutation_cons; [reflexivity |] |]; exact IH.
  - destruct (P x), (P y); try reflexivity. apply Permutation_swap.
  - rewrite IH1. exact IH2.
Qed.

Lemma List_filter_complement (i : Z) (l : list SaveSlot) :
  List.filter (fun s => slot_id s =? i)
    (List.filter (fun s => negb (slot_id s =? i)) l) = [].
Proof.
  induction l as [| x l IH]; [reflexivity |]. simpl.
  destruct (slot_id x =? i) eqn:E; simpl; [exact IH |]. rewrite E. exact IH.
Qed.

(** X27: The slot list after [saveGame]: it is ordered by slot number, holds
    exactly one slot with the number saved to, and otherwise the slots
    with other numbers that it held before, whatever the list was. *)
Theorem saveGame_slots
    (now : string) (id : Z) (slots : list SaveSlot) (currentState : GameState) :
  let slots' := saveGame now id slots currentState in
  Sorted Z.le (map slot_id slots')
  /\ slots'
     ≡ₚ mkSaveSlot id ("Save Slot " +:+ pretty id) now currentState
        :: List.filter (fun s => negb (slot_id s =? id)) slots
  /\ List.filter (fun s => slot_id s =? id) slots'
     = [mkSaveSlot id ("Save Slot " +:+ pretty id) now currentState].
Proof.
  intros slots'. subst slots'. unfold saveGame.
  split; [apply sortSlots_Sorted |]. split.
  - rewrite sortSlots_Permutation. symmetry. apply Permutation_cons_append.
  - apply Permutation_singleton_r.
    rewrite (List_filter_Permutation _ _ _ (sortSlots_Permutation _)).
    rewrite List.filter_app, List_filter_complement. simpl.
    rewrite Z.eqb_refl. reflexivity.
Qed.

(** X28: [deleteSave], once confirmed, leaves no slot with the number deleted
    and does not change the lookup of any other number; declined, it
    leaves the list as it is. *)
Theorem deleteSave_findSlot (confirmed : bool) (id : Z) (slots : list SaveSlot) :
  (confirmed = true ->
   findSlot id (deleteSave confirmed id slots) = None
   /\ forall id', id' <> id ->
        findSlot id' (deleteSave confirmed id slots) = findSlot id' slots)
  /\ (confirmed = false -> deleteSave confirmed id slots = slots).
Proof.
  split.
  - intros ->. unfold deleteSave. simpl. split.
    + apply findSlot_filter_same.
    + intros id' Hne. apply findSlot_filter_other. congruence.
  - intros ->. reflexivity.
Qed.

(** ** The debug clock *)

(** X3: A click on an action slot does nothing unless [devMode] is on and
    the slot clicked is the one that [slotsUsed] points at.  Then it
    moves the clock exactly as a turn does and changes nothing else:
    unlike a turn it leaves the stats alone even when a new day starts,
    and it appends nothing to the history. *)
Theorem handleDevSlotClick_time_only
    (devMode : bool) (s : GameState) (slotIndex : Z) :
  let s' := handleDevSlotClick devMode s slotIndex in
  (devMode = false \/ slotIndex <> slotsUsed (time s) -> s' = s)
  /\ (devMode = true -> slotIndex = slotsUsed (time s) ->
      forall textInput intent,
        time s' = time (beginTurn s textInput intent))
  /\ stats s' = stats s
  /\ history s' = history s
  /\ inventory s' = inventory s
  /\ equipped s' = equipped s
  /\ location s' = location s
  /\ npcRelationships s' = npcRelationships s
  /\ config s' = config s.
Proof.
  intros s'. subst s'. unfold handleDevSlotClick. split; [| split].
  - intros [-> | H]; [reflexivity |].
    destruct (negb devMode); [reflexivity |].
    destruct (Z.eqb_spec slotIndex (slotsUsed (time s))); [contradiction |].
    reflexivity.
  - intros -> -> textInput intent. simpl. rewrite Z.eqb_refl. reflexivity.
  - destruct (negb devMode); [repeat split |].
    destruct (slotIndex =? slotsUsed (time s)); repeat split.
Qed.
